(** * Bird router: a shallow embedding of the Express route handlers

    The development follows the layout of the router module
    ([routes/open/birds]): JSON values and the request/response objects
    first, then the validation middleware and the five endpoint handlers,
    then the connection pool they talk to, and finally the properties of
    the routes.

    A handler is embedded as the tree of effects it performs: it may throw
    synchronously, log to the console, send a response, or issue one
    parameterised query whose promise is continued by a [.then] and a
    [.catch] callback.  Running a tree against a pool gives the response
    (if any), the console output, the queries issued and the final store. *)

From Stdlib Require Import String Ascii List ZArith Arith Lia.
From Stdlib Require Import Decimal DecimalString DecimalNat.
From stdpp Require Import base list strings.
Import ListNotations.

Local Open Scope string_scope.

Set Warnings "-register-all".

(** ** JSON values *)

(** What [express.json()] leaves in [request.body], and what the driver
    returns in [result.rows]: plain JSON data, plus [undefined] for an
    absent property.  Objects keep their fields in insertion order.
    Numbers are restricted to integers: no route computes with them. *)
Inductive JSValue : Type :=
| JUndefined
| JNull
| JBool (b : bool)
| JNum (n : Z)
| JStr (s : string)
| JArr (elems : list JSValue)
| JObj (fields : list (string * JSValue)).

Inductive JSError : Type :=
| TypeError_read_of_nullish (key : string)   (* Cannot read properties of undefined/null *)
| TypeError_not_a_function (key : string).   (* x.key is not a function *)

(** Normal or abrupt completion of an expression. *)
Inductive Completion (A : Type) : Type :=
| Normal (a : A)
| Abrupt (e : JSError).
Arguments Normal {A} a.
Arguments Abrupt {A} e.

Fixpoint own_field (fields : list (string * JSValue)) (key : string) : JSValue :=
  match fields with
  | [] => JUndefined
  | (k, v) :: rest => if String.eqb k key then v else own_field rest key
  end.

(** [v.key] for the data properties the router reads ([birds],
    [birdNames], [names], [comName], ...).  None of these names lives on
    a prototype, so reading one from a string, number, boolean or array
    gives [undefined]; reading from [undefined] or [null] throws. *)
Definition prop (v : JSValue) (key : string) : Completion JSValue :=
  match v with
  | JUndefined | JNull => Abrupt (TypeError_read_of_nullish key)
  | JObj fields => Normal (own_field fields key)
  | _ => Normal JUndefined
  end.

Definition is_nullish (v : JSValue) : bool :=
  match v with
  | JUndefined | JNull => true
  | _ => false
  end.

(** [Array.isArray(v)] *)
Definition isArray (v : JSValue) : bool :=
  match v with
  | JArr _ => true
  | _ => false
  end.

(** [v.map(f)] where [f] receives the element and its index.  Only arrays
    inherit a callable [map]; a JSON object may own a field called [map],
    but JSON data is never callable. *)
Definition call_map {B : Type} (v : JSValue) (f : JSValue -> nat -> B)
  : Completion (list B) :=
  match v with
  | JArr elems => Normal (imap (fun i x => f x i) elems)
  | JUndefined | JNull => Abrupt (TypeError_read_of_nullish "map")
  | _ => Abrupt (TypeError_not_a_function "map")
  end.

(** Decimal rendering of a number inside a template literal. *)
Definition dec (n : nat) : string :=
  NilEmpty.string_of_uint (Nat.to_uint n).

(** The line break inside a multi-line template literal. *)
Definition nl : string := String (ascii_of_nat 10) EmptyString.

(** [parts.join(sep)] for an array of strings. *)
Definition join (sep : string) (parts : list string) : string :=
  String.concat sep parts.

(** ['Error: ' + err.detail]: an absent detail is rendered by JavaScript's
    string conversion of [undefined]. *)
Definition show_detail (d : option string) : string :=
  match d with
  | Some s => s
  | None => "undefined"
  end.

(** ** The data model ([core/models/bird])

    The interfaces only annotate the rows a query returns; they are
    erased at run time and nothing checks a row or a body against them. *)

Module Model.

Record INames : Type := {
  formattedComName : string;
  comName : string;
  sciName : string
}.

Record IPhotos : Type := {
  previewPhoto : string;
  maleBreedingPhoto : string;
  maleNonbreedingPhoto : string;
  femalePhoto : string
}.

Record IBird : Type := {
  names : INames;
  photos : IPhotos;
  sound : string;
  shortDesc : string;
  longDesc : string;
  howToFind : string;
  habitat : string;
  learnMoreLink : string
}.

End Model.

(** The body that carries a bird to the create and update routes: the
    flat object of the [BirdBody] documentation block, one string field
    per attribute. *)
Definition bird_body (b : Model.IBird) : JSValue :=
  JObj [("formattedComName", JStr (Model.formattedComName (Model.names b)));
        ("comName", JStr (Model.comName (Model.names b)));
        ("sciName", JStr (Model.sciName (Model.names b)));
        ("previewPhoto", JStr (Model.previewPhoto (Model.photos b)));
        ("maleBreedingPhoto", JStr (Model.maleBreedingPhoto (Model.photos b)));
        ("maleNonbreedingPhoto", JStr (Model.maleNonbreedingPhoto (Model.photos b)));
        ("femalePhoto", JStr (Model.femalePhoto (Model.photos b)));
        ("sound", JStr (Model.sound b));
        ("shortDesc", JStr (Model.shortDesc b));
        ("longDesc", JStr (Model.longDesc b));
        ("howToFind", JStr (Model.howToFind b));
        ("habitat", JStr (Model.habitat b));
        ("learnMoreLink", JStr (Model.learnMoreLink b))].

(** ** Requests, responses, query results *)

Record Request : Type := {
  body : JSValue;                      (* request.body *)
  params : list (string * string)      (* request.params *)
}.

Definition param (request : Request) (name : string) : JSValue :=
  match List.find (fun kv => String.eqb (fst kv) name) (params request) with
  | Some kv => JStr (snd kv)
  | None => JUndefined
  end.

Record Response : Type := {
  status : nat;
  payload : JSValue
}.

(** The driver's result object: [rowCount] and [rows]. *)
Record QueryResult : Type := {
  rowCount : nat;
  rows : list JSValue
}.

(** The driver's error object; [detail] is absent on many errors. *)
Record DbError : Type := {
  code : string;
  message : string;
  detail : option string
}.

Inductive LogLine : Type :=
| LogText (s : string)
| LogError (e : DbError).

(** ** Handlers as effect trees *)

Inductive Action : Type :=
| Send (st : nat) (p : JSValue)
    (* response.status(st).send(p); response.json(p) and response.send(p)
       use the default status 200 *)
| Throw (e : JSError)
| Log (l : LogLine) (k : Action)
| Query (text : string) (values : JSValue)
        (onFulfilled : QueryResult -> Action)
        (onRejected : DbError -> Action).
    (* pool.query(text, values).then(onFulfilled).catch(onRejected); no
       [.then] callback of the router throws, so [.catch] only ever sees
       a rejected query *)

Definition message_body (m : string) : JSValue := JObj [("message", JStr m)].

Module BirdRouter.

(** *** 2. Middleware *)

Definition mwValidBirdsBody (request : Request) (next : Action) : Action :=
  match prop (body request) "birds" with
  | Abrupt e => Throw e
  | Normal birds =>
      if isArray birds then next
      else
        Log (LogText "Invalid or missing Birds")
          (Send 400
             (message_body "Invalid or missing Bird - please refer to documentation"))
  end.

(** *** 3. Endpoint handlers *)

(** [birdNames.map((_, i) => `$${i + 1}`).join(',')] *)
Definition placeholders (birdNames : JSValue) : Completion string :=
  match call_map birdNames (fun _ i => "$" ++ dec (i + 1)) with
  | Normal parts => Normal (join "," parts)
  | Abrupt e => Abrupt e
  end.

Definition on_error_400 (err : DbError) : Action :=
  Send 400 (message_body ("Error: " ++ show_detail (detail err))).

(** GET /all *)
Definition get_all_query : string := "SELECT * FROM Birds".

Definition get_all_then (result : QueryResult) : Action :=
  if (1 <=? rowCount result)%nat then Send 200 (JArr (rows result))
  else Send 404 (message_body "No birds were found in the database").

Definition get_all_catch (error : DbError) : Action :=
  Log (LogText "DB Query error on GET all")
    (Log (LogError error)
       (Send 500 (message_body "server error - contact support"))).

Definition get_all (request : Request) : Action :=
  Query get_all_query JUndefined get_all_then get_all_catch.

(** GET / *)
Definition select_in_query (placeholders : string) : string :=
  "SELECT * FROM Birds WHERE Formatted_Com_Name IN (" ++ placeholders ++ ");".

Definition get_by_names_then (result : QueryResult) : Action :=
  Send 200 (JArr (rows result)).

Definition get_by_names_handler (request : Request) : Action :=
  match prop (body request) "birdNames" with
  | Abrupt e => Throw e
  | Normal birdNames =>
      match placeholders birdNames with
      | Abrupt e => Throw e
      | Normal ph =>
          Query (select_in_query ph) birdNames get_by_names_then on_error_400
      end
  end.

Definition get_by_names (request : Request) : Action :=
  mwValidBirdsBody request (get_by_names_handler request).

(** PUT /:formattedComName *)
Definition update_query : string :=
  "UPDATE birds SET Com_Name = $1, Sci_Name = $2, Preview_Photo = $3, " ++ nl ++
  "            Male_Breeding_Photo = $4, Male_Nonbreeding_Photo = $5, Female_Photo = $6, Sound = $7," ++ nl ++
  "            Short_Desc = $8, Long_Desc = $9, How_To_Find = $10, Habitat = $11, Learn_More_Link = $12" ++ nl ++
  "            WHERE Formatted_Com_Name = $13 RETURNING *;".

Definition first_row (result : QueryResult) : JSValue :=
  match rows result with
  | r :: _ => r
  | [] => JUndefined
  end.

Definition put_then (result : QueryResult) : Action :=
  if (0 <? rowCount result)%nat then Send 200 (first_row result)
  else Send 404 (message_body "No bird found with the provided name.").

(** Reads the listed body fields left to right, as an array literal does. *)
Fixpoint read_fields (b : JSValue) (names : list string) : Completion (list JSValue) :=
  match names with
  | [] => Normal []
  | n :: rest =>
      match prop b n with
      | Abrupt e => Abrupt e
      | Normal v =>
          match read_fields b rest with
          | Abrupt e => Abrupt e
          | Normal vs => Normal (v :: vs)
          end
      end
  end.

Definition put_fields : list string :=
  ["comName"; "sciName"; "previewPhoto"; "maleBreedingPhoto";
   "maleNonbreedingPhoto"; "femalePhoto"; "sound"; "shortDesc"; "longDesc";
   "howToFind"; "habitat"; "learnMoreLink"].

Definition put (request : Request) : Action :=
  let birdName := param request "formattedComName" in
  match read_fields (body request) put_fields with
  | Abrupt e => Throw e
  | Normal vs => Query update_query (JArr (vs ++ [birdName])) put_then on_error_400
  end.

(** POST / *)
Definition insert_query : string :=
  "INSERT INTO birds (Formatted_Com_Name, Com_Name, Sci_Name, Preview_Photo," ++ nl ++
  "            Male_Breeding_Photo, Male_Nonbreeding_Photo, Female_Photo, Sound, Short_Desc, Long_Desc," ++ nl ++
  "            How_To_Find, Habitat, Learn_More_Link) VALUES ($1, $2, $3, $4, $5, $6, $7, $8, $9, $10," ++ nl ++
  "            $11, $12, $13) RETURNING *;".

Definition post_fields : list string := "formattedComName" :: put_fields.

Definition post_then (result : QueryResult) : Action :=
  Send 200 (first_row result).

Definition post (request : Request) : Action :=
  match read_fields (body request) post_fields with
  | Abrupt e => Throw e
  | Normal vs => Query insert_query (JArr vs) post_then on_error_400
  end.

(** DELETE / (registered without middleware) *)
Definition delete_in_query (placeholders : string) : string :=
  "DELETE FROM Birds WHERE Formatted_Com_Name IN (" ++ placeholders ++ ");".

Definition delete_then (birdNames : JSValue) (result : QueryResult) : Action :=
  if (0 <? rowCount result)%nat then
    Send 200
      (JObj [("message", JStr (dec (rowCount result) ++ " bird(s) deleted successfully."));
             ("birdNames", birdNames)])
  else
    Send 404
      (JObj [("message", JStr "No birds found with the provided names.");
             ("birdNames", birdNames)]).

Definition delete (request : Request) : Action :=
  match prop (body request) "names" with
  | Abrupt e => Throw e
  | Normal birdNames =>
      match placeholders birdNames with
      | Abrupt e => Throw e
      | Normal ph =>
          Query (delete_in_query ph) birdNames (delete_then birdNames) on_error_400
      end
  end.

End BirdRouter.

(** ** Running a handler against a connection pool *)

Inductive Settled : Type :=
| Fulfilled (result : QueryResult)
| Rejected (error : DbError).

(** [pool.query(text, values)] over a store of type [S]. *)
Definition Pool (S : Type) : Type := string -> JSValue -> S -> Settled * S.

(** What one request leaves behind.  [response] is what the handler
    itself sent; an error it threw is recorded in [thrown] and left to
    the framework. *)
Record Outcome (S : Type) : Type := {
  response : option Response;
  thrown : option JSError;
  console : list LogLine;
  issued : list (string * JSValue);
  store : S
}.
Arguments response {S} _.
Arguments thrown {S} _.
Arguments console {S} _.
Arguments issued {S} _.
Arguments store {S} _.

Definition logged {S} (l : LogLine) (o : Outcome S) : Outcome S :=
  {| response := response o; thrown := thrown o; console := l :: console o;
     issued := issued o; store := store o |}.

Definition queried {S} (q : string * JSValue) (o : Outcome S) : Outcome S :=
  {| response := response o; thrown := thrown o; console := console o;
     issued := q :: issued o; store := store o |}.

Fixpoint run {S : Type} (pool : Pool S) (a : Action) (db : S) : Outcome S :=
  match a with
  | Send st p =>
      {| response := Some {| status := st; payload := p |}; thrown := None;
         console := []; issued := []; store := db |}
  | Throw e =>
      {| response := None; thrown := Some e; console := []; issued := [];
         store := db |}
  | Log l k => logged l (run pool k db)
  | Query text values onFulfilled onRejected =>
      match pool text values db with
      | (Fulfilled result, db') =>
          queried (text, values) (run pool (onFulfilled result) db')
      | (Rejected error, db') =>
          queried (text, values) (run pool (onRejected error) db')
      end
  end.

(** ** The backing store

    [pool] is imported from the utilities module, which is not among the
    sources at hand, and wraps the PostgreSQL driver; the database server
    is outside the repository altogether.  The handlers are stated over
    an arbitrary [Pool]; the module below gives the one the schema file
    is written for, as far as the five statements of the router exercise
    it: lexing and parsing of the statement text, name resolution against
    the table definition, parameter binding, and execution over the rows
    of the [Birds] relation.  Text outside this fragment is reported as a
    syntax error.  The [Account] relations of the schema file are not
    touched by any route and are left out. *)

Module Pg.

(** *** Lexical structure *)

Inductive Sym : Type := LParen | RParen | Comma | Equals | Star | Semi.

Inductive Token : Type :=
| TWord (w : string)      (* keyword or identifier, folded to lower case *)
| TParam (n : nat)        (* $n *)
| TSym (s : Sym).

Definition is_space (c : ascii) : bool :=
  let n := nat_of_ascii c in
  Nat.eqb n 32 || Nat.eqb n 9 || Nat.eqb n 10 || Nat.eqb n 13.

Definition is_digit (c : ascii) : bool :=
  let n := nat_of_ascii c in
  Nat.leb 48 n && Nat.leb n 57.

Definition is_upper (c : ascii) : bool :=
  let n := nat_of_ascii c in
  Nat.leb 65 n && Nat.leb n 90.

Definition is_letter (c : ascii) : bool :=
  let n := nat_of_ascii c in
  is_upper c || (Nat.leb 97 n && Nat.leb n 122) || Nat.eqb n 95.

Definition is_dollar (c : ascii) : bool := Nat.eqb (nat_of_ascii c) 36.

Definition sym_of (c : ascii) : option Sym :=
  let n := nat_of_ascii c in
  if Nat.eqb n 40 then Some LParen
  else if Nat.eqb n 41 then Some RParen
  else if Nat.eqb n 44 then Some Comma
  else if Nat.eqb n 61 then Some Equals
  else if Nat.eqb n 42 then Some Star
  else if Nat.eqb n 59 then Some Semi
  else None.

(** Unquoted identifiers are folded to lower case. *)
Definition lower (c : ascii) : ascii :=
  if is_upper c then ascii_of_nat (nat_of_ascii c + 32) else c.

Definition fold_case (s : string) : string :=
  string_of_list_ascii (List.map lower (list_ascii_of_string s)).

(** The token being read; characters are accumulated in reverse. *)
Inductive Pending : Type :=
| PNone
| PWord (rev_chars : list ascii)
| PParam (rev_digits : list ascii).

Definition LexState : Type := option (Pending * list Token).

Definition flush (p : Pending) (toks : list Token) : option (list Token) :=
  match p with
  | PNone => Some toks
  | PWord cs => Some (TWord (string_of_list_ascii (rev cs)) :: toks)
  | PParam [] => None
  | PParam ds =>
      match NilEmpty.uint_of_string (string_of_list_ascii (rev ds)) with
      | Some d => Some (TParam (Nat.of_uint d) :: toks)
      | None => None
      end
  end.

Definition lex_step (st : LexState) (c : ascii) : LexState :=
  match st with
  | None => None
  | Some (p, toks) =>
      if is_space c then
        match flush p toks with
        | Some toks' => Some (PNone, toks')
        | None => None
        end
      else
        match sym_of c with
        | Some s =>
            match flush p toks with
            | Some toks' => Some (PNone, TSym s :: toks')
            | None => None
            end
        | None =>
            if is_dollar c then
              match p with
              | PNone => Some (PParam [], toks)
              | PWord cs => Some (PWord (c :: cs), toks)
              | PParam _ => None
              end
            else if is_digit c then
              match p with
              | PNone => None
              | PWord cs => Some (PWord (c :: cs), toks)
              | PParam ds => Some (PParam (c :: ds), toks)
              end
            else if is_letter c then
              match p with
              | PNone => Some (PWord [lower c], toks)
              | PWord cs => Some (PWord (lower c :: cs), toks)
              | PParam _ => None
              end
            else None
        end
  end.

Definition lex_chars (cs : list ascii) (st : LexState) : LexState :=
  fold_left lex_step cs st.

Definition finish (st : LexState) : option (list Token) :=
  match st with
  | None => None
  | Some (p, toks) =>
      match flush p toks with
      | Some toks' => Some (rev toks')
      | None => None
      end
  end.

Definition lex (text : string) : option (list Token) :=
  finish (lex_chars (list_ascii_of_string text) (Some (PNone, []))).

(** *** Statements *)

Inductive Statement : Type :=
| SelectAll (table : string)
| SelectIn (table column : string) (args : list nat)
| DeleteIn (table column : string) (args : list nat)
| Update (table : string) (sets : list (string * nat)) (column : string) (arg : nat)
| Insert (table : string) (columns : list string) (args : list nat).

Definition keyword (k : string) (ts : list Token) : option (list Token) :=
  match ts with
  | TWord w :: rest => if String.eqb w k then Some rest else None
  | _ => None
  end.

Definition ident (ts : list Token) : option (string * list Token) :=
  match ts with
  | TWord w :: rest => Some (w, rest)
  | _ => None
  end.

Definition Sym_eqb (a b : Sym) : bool :=
  match a, b with
  | LParen, LParen | RParen, RParen | Comma, Comma
  | Equals, Equals | Star, Star | Semi, Semi => true
  | _, _ => false
  end.

Definition symbol (s : Sym) (ts : list Token) : option (list Token) :=
  match ts with
  | TSym s' :: rest => if Sym_eqb s s' then Some rest else None
  | _ => None
  end.

(** The statement ends here, with or without a semicolon. *)
Definition at_end (ts : list Token) : bool :=
  match ts with
  | [] | [TSym Semi] => true
  | _ => false
  end.

(** [$a, $b, ... )]: a non-empty list of parameters and the closing
    parenthesis. *)
Fixpoint parse_args (ts : list Token) : option (list nat * list Token) :=
  match ts with
  | TParam n :: TSym RParen :: rest => Some ([n], rest)
  | TParam n :: TSym Comma :: rest =>
      match parse_args rest with
      | Some (ns, rest') => Some (n :: ns, rest')
      | None => None
      end
  | _ => None
  end.

(** [c1, c2, ... )] *)
Fixpoint parse_columns (ts : list Token) : option (list string * list Token) :=
  match ts with
  | TWord c :: TSym RParen :: rest => Some ([c], rest)
  | TWord c :: TSym Comma :: rest =>
      match parse_columns rest with
      | Some (cs, rest') => Some (c :: cs, rest')
      | None => None
      end
  | _ => None
  end.

(** [c1 = $a, c2 = $b, ...], up to the token that follows the last
    assignment. *)
Fixpoint parse_sets (ts : list Token) : option (list (string * nat) * list Token) :=
  match ts with
  | TWord c :: TSym Equals :: TParam n :: TSym Comma :: rest =>
      match parse_sets rest with
      | Some (ss, rest') => Some ((c, n) :: ss, rest')
      | None => None
      end
  | TWord c :: TSym Equals :: TParam n :: rest => Some ([(c, n)], rest)
  | _ => None
  end.

Definition returning_star (ts : list Token) : bool :=
  match keyword "returning" ts with
  | Some ts1 =>
      match symbol Star ts1 with
      | Some ts2 => at_end ts2
      | None => false
      end
  | None => false
  end.

(** [WHERE column IN ( args )] to the end of the statement. *)
Definition parse_where_in (ts : list Token) : option (string * list nat) :=
  ts1 ← keyword "where" ts;
  '(c, ts2) ← ident ts1;
  ts3 ← keyword "in" ts2;
  ts4 ← symbol LParen ts3;
  '(ns, ts5) ← parse_args ts4;
  if at_end ts5 then Some (c, ns) else None.

Definition parse_select (ts : list Token) : option Statement :=
  ts1 ← symbol Star ts;
  ts2 ← keyword "from" ts1;
  '(t, ts3) ← ident ts2;
  if at_end ts3 then Some (SelectAll t)
  else '(c, ns) ← parse_where_in ts3; Some (SelectIn t c ns).

Definition parse_delete (ts : list Token) : option Statement :=
  ts1 ← keyword "from" ts;
  '(t, ts2) ← ident ts1;
  '(c, ns) ← parse_where_in ts2;
  Some (DeleteIn t c ns).

Definition parse_update (ts : list Token) : option Statement :=
  '(t, ts1) ← ident ts;
  ts2 ← keyword "set" ts1;
  '(ss, ts3) ← parse_sets ts2;
  ts4 ← keyword "where" ts3;
  '(c, ts5) ← ident ts4;
  ts6 ← symbol Equals ts5;
  match ts6 with
  | TParam n :: ts7 => if returning_star ts7 then Some (Update t ss c n) else None
  | _ => None
  end.

Definition parse_insert (ts : list Token) : option Statement :=
  ts1 ← keyword "into" ts;
  '(t, ts2) ← ident ts1;
  ts3 ← symbol LParen ts2;
  '(cs, ts4) ← parse_columns ts3;
  ts5 ← keyword "values" ts4;
  ts6 ← symbol LParen ts5;
  '(ns, ts7) ← parse_args ts6;
  if returning_star ts7 then Some (Insert t cs ns) else None.

Definition parse_tokens (ts : list Token) : option Statement :=
  match ts with
  | TWord w :: rest =>
      if String.eqb w "select" then parse_select rest
      else if String.eqb w "delete" then parse_delete rest
      else if String.eqb w "update" then parse_update rest
      else if String.eqb w "insert" then parse_insert rest
      else None
  | _ => None
  end.

Definition parse (text : string) : option Statement :=
  ts ← lex text; parse_tokens ts.

(** *** The relation

    Every column of [Birds] is of type TEXT, so a stored value is a
    string or NULL.  A row lists its columns in the order of the table
    definition, under their folded names. *)

Record Column : Type := {
  col_name : string;
  not_null : bool;
  primary_key : bool
}.

Record Table : Type := {
  table_name : string;
  table_columns : list Column
}.

Definition text_column (name : string) : Column :=
  {| col_name := name; not_null := false; primary_key := false |}.

(** [CREATE TABLE Birds] of the schema file. *)
Definition Birds : Table :=
  {| table_name := "Birds";
     table_columns :=
       [ {| col_name := "Formatted_Com_Name"; not_null := false; primary_key := true |};
         {| col_name := "Com_Name"; not_null := true; primary_key := false |};
         text_column "Sci_Name";
         text_column "Preview_Photo";
         text_column "Male_Breeding_Photo";
         text_column "Male_Nonbreeding_Photo";
         text_column "Female_Photo";
         text_column "Sound";
         text_column "Short_Desc";
         text_column "Long_Desc";
         text_column "How_To_Find";
         text_column "Learn_More_Link" ] |}.

Definition Row : Type := list (string * option string).

Definition column_names (t : Table) : list string :=
  List.map (fun c => fold_case (col_name c)) (table_columns t).

Definition has_column (t : Table) (c : string) : bool :=
  existsb (String.eqb c) (column_names t).

(** Columns that reject NULL: NOT NULL and PRIMARY KEY columns. *)
Definition required_columns (t : Table) : list string :=
  List.map (fun c => fold_case (col_name c))
    (List.filter (fun c => not_null c || primary_key c) (table_columns t)).

Definition key_columns (t : Table) : list string :=
  List.map (fun c => fold_case (col_name c))
    (List.filter primary_key (table_columns t)).

Definition row_get (r : Row) (c : string) : option string :=
  match List.find (fun kv => String.eqb (fst kv) c) r with
  | Some kv => snd kv
  | None => None
  end.

Definition sql_json (v : option string) : JSValue :=
  match v with
  | Some s => JStr s
  | None => JNull
  end.

(** The row object the driver hands back. *)
Definition row_json (r : Row) : JSValue :=
  JObj (List.map (fun kv => (fst kv, sql_json (snd kv))) r).

(** *** Errors (only [detail] is read by the router; messages are
    abbreviated) *)

Definition syntax_error : DbError :=
  {| code := "42601"; message := "syntax error"; detail := None |}.

Definition undefined_table : DbError :=
  {| code := "42P01"; message := "relation does not exist"; detail := None |}.

Definition undefined_column : DbError :=
  {| code := "42703"; message := "column does not exist"; detail := None |}.

Definition duplicate_column : DbError :=
  {| code := "42701"; message := "column specified more than once"; detail := None |}.

Definition indeterminate_datatype : DbError :=
  {| code := "42P18"; message := "could not determine data type of parameter";
     detail := None |}.

Definition protocol_violation : DbError :=
  {| code := "08P01";
     message := "bind message supplies the wrong number of parameters";
     detail := None |}.

Definition show_sql (v : option string) : string :=
  match v with
  | Some s => s
  | None => "null"
  end.

Definition not_null_violation (r : Row) : DbError :=
  {| code := "23502";
     message := "null value violates not-null constraint";
     detail := Some ("Failing row contains ("
                     ++ join ", " (List.map (fun kv => show_sql (snd kv)) r) ++ ").") |}.

Definition unique_violation (c : string) (v : option string) : DbError :=
  {| code := "23505";
     message := "duplicate key value violates unique constraint";
     detail := Some ("Key (" ++ c ++ ")=(" ++ show_sql v ++ ") already exists.") |}.

(** *** Name resolution and parameters *)

Definition stmt_table (s : Statement) : string :=
  match s with
  | SelectAll t | SelectIn t _ _ | DeleteIn t _ _ | Update t _ _ _ | Insert t _ _ => t
  end.

Definition stmt_columns (s : Statement) : list string :=
  match s with
  | SelectAll _ => []
  | SelectIn _ c _ | DeleteIn _ c _ => [c]
  | Update _ sets c _ => (List.map fst sets ++ [c])%list
  | Insert _ cs _ => cs
  end.

Definition stmt_params (s : Statement) : list nat :=
  match s with
  | SelectAll _ => []
  | SelectIn _ _ ns | DeleteIn _ _ ns => ns
  | Update _ sets _ n => (List.map snd sets ++ [n])%list
  | Insert _ _ ns => ns
  end.

(** Number of parameters of the prepared statement: the highest index. *)
Definition params_required (ns : list nat) : nat := list_max ns.

(** Every index from 1 to the highest one is referenced, and none is 0. *)
Definition params_determined (ns : list nat) : bool :=
  forallb (fun n => Nat.leb 1 n) ns
  && forallb (fun k => existsb (Nat.eqb k) ns) (seq 1 (params_required ns)).

Fixpoint distinct (l : list string) : bool :=
  match l with
  | [] => true
  | x :: rest => negb (existsb (String.eqb x) rest) && distinct rest
  end.

(** Checks made when the statement is prepared, before any value is
    bound. *)
Definition analyse (t : Table) (s : Statement) : option DbError :=
  if negb (String.eqb (stmt_table s) (fold_case (table_name t))) then
    Some undefined_table
  else if negb (forallb (has_column t) (stmt_columns s)) then
    Some undefined_column
  else
    match s with
    | Insert _ cs ns =>
        if negb (Nat.eqb (length cs) (length ns)) then Some syntax_error
        else if negb (distinct cs) then Some duplicate_column
        else if params_determined ns then None else Some indeterminate_datatype
    | Update _ sets _ _ =>
        if negb (distinct (List.map fst sets)) then Some syntax_error
        else if params_determined (stmt_params s) then None
        else Some indeterminate_datatype
    | _ =>
        if params_determined (stmt_params s) then None
        else Some indeterminate_datatype
    end.

Section Store.

(** How the driver serialises an array or object parameter is left
    open: the results below hold for every rendering. *)
Variable composite_text : JSValue -> string.

(** The table definition the server was initialised with. *)
Variable tbl : Table.

(** The driver's conversion of a parameter to text; [None] is NULL. *)
Definition prepareValue (v : JSValue) : option string :=
  match v with
  | JUndefined | JNull => None
  | JStr s => Some s
  | JBool b => Some (if b then "true" else "false")
  | JNum n => Some (NilEmpty.string_of_int (Z.to_int n))
  | other => Some (composite_text other)
  end.

Definition values_list (values : JSValue) : list JSValue :=
  match values with
  | JArr vs => vs
  | _ => []
  end.

(** The value bound to [$n]. *)
Definition arg (bound : list (option string)) (n : nat) : option string :=
  nth (n - 1) bound None.

Definition matches (bound : list (option string)) (c : string) (ns : list nat)
    (r : Row) : bool :=
  match row_get r c with
  | Some s =>
      existsb (fun n => match arg bound n with
                        | Some s' => String.eqb s s'
                        | None => false
                        end) ns
  | None => false
  end.

Definition assign (bound : list (option string)) (sets : list (string * nat))
    (r : Row) : Row :=
  List.map (fun kv =>
              match List.find (fun cn => String.eqb (fst cn) (fst kv)) sets with
              | Some cn => (fst kv, arg bound (snd cn))
              | None => kv
              end) r.

Definition new_row (bound : list (option string)) (cs : list string) (ns : list nat)
    : Row :=
  List.map (fun c =>
              match List.find (fun cn => String.eqb (fst cn) c) (combine cs ns) with
              | Some cn => (c, arg bound (snd cn))
              | None => (c, None)
              end) (column_names tbl).

Definition is_null (v : option string) : bool :=
  match v with
  | Some _ => false
  | None => true
  end.

Definition violates_not_null (r : Row) : bool :=
  existsb (fun c => is_null (row_get r c)) (required_columns tbl).

Definition same_key (r r' : Row) : bool :=
  forallb (fun c => match row_get r c, row_get r' c with
                    | Some a, Some b => String.eqb a b
                    | _, _ => false
                    end) (key_columns tbl).

Fixpoint first_duplicate (db : list Row) : option Row :=
  match db with
  | [] => None
  | r :: rest => if existsb (same_key r) rest then Some r else first_duplicate rest
  end.

Definition key_error (r : Row) : DbError :=
  match key_columns tbl with
  | c :: _ => unique_violation c (row_get r c)
  | [] => unique_violation "" None
  end.

Definition fulfilled (rs : list Row) (count : nat) : Settled :=
  Fulfilled {| rowCount := count; rows := List.map row_json rs |}.

Definition execute (s : Statement) (bound : list (option string)) (db : list Row)
    : Settled * list Row :=
  match s with
  | SelectAll _ => (fulfilled db (length db), db)
  | SelectIn _ c ns =>
      let found := List.filter (matches bound c ns) db in
      (fulfilled found (length found), db)
  | DeleteIn _ c ns =>
      let gone := List.filter (matches bound c ns) db in
      let kept := List.filter (fun r => negb (matches bound c ns r)) db in
      (fulfilled [] (length gone), kept)
  | Update _ sets c n =>
      let hit := matches bound c [n] in
      let changed := List.map (assign bound sets) (List.filter hit db) in
      let db' := List.map (fun r => if hit r then assign bound sets r else r) db in
      match List.find violates_not_null changed with
      | Some r => (Rejected (not_null_violation r), db)
      | None =>
          if existsb (fun k => existsb (String.eqb k) (List.map fst sets))
               (key_columns tbl)
          then
            match first_duplicate db' with
            | Some r => (Rejected (key_error r), db)
            | None => (fulfilled changed (length changed), db')
            end
          else (fulfilled changed (length changed), db')
      end
  | Insert _ cs ns =>
      let r := new_row bound cs ns in
      if violates_not_null r then (Rejected (not_null_violation r), db)
      else if existsb (same_key r) db then (Rejected (key_error r), db)
      else (fulfilled [r] 1, (db ++ [r])%list)
  end.

(** Modelled from the spec: [pool.query(text, values)] of the connection
    pool exported by the utilities module, which is missing from the
    sources.  It executes one parameterised statement and either fulfils
    with the affected-row count and the row set or rejects with the
    driver's error, whose [detail] may be absent; an empty IN list is
    invalid syntax, and constraints (NOT NULL, the primary key) are
    enforced by the store alone.  The table it runs over is the one of
    the schema file. *)
Definition query : Pool (list Row) :=
  fun text values db =>
    match parse text with
    | None => (Rejected syntax_error, db)
    | Some s =>
        match analyse tbl s with
        | Some e => (Rejected e, db)
        | None =>
            let bound := List.map prepareValue (values_list values) in
            if Nat.eqb (length bound) (params_required (stmt_params s))
            then execute s bound db
            else (Rejected protocol_violation, db)
        end
    end.

End Store.

End Pg.

(** ** Vocabulary of the properties *)

(** The placeholder [$k]. *)
Definition placeholder (k : nat) : string := "$" ++ dec k.

(** The placeholder list as the specification words it: [$1] to [$n],
    joined by commas. *)
Definition placeholder_list (n : nat) : string :=
  join "," (List.map placeholder (seq 1 n)).

(** The characters of a statement text. *)
Definition chars : string → list ascii := list_ascii_of_string.

(** Tokens of the parameters that are followed by a comma. *)
Definition comma_args (ns : list nat) : list Pg.Token :=
  flat_map (fun n => [Pg.TParam n; Pg.TSym Pg.Comma]) ns.

(** With one placeholder per bound value, a row matches when its key is
    among the values. *)
Definition key_among (bound : list (option string)) (c : string) (r : Pg.Row) : bool :=
  match Pg.row_get r c with
  | Some s =>
      existsb (fun v => match v with
                        | Some s' => String.eqb s s'
                        | None => false
                        end) bound
  | None => false
  end.

(** What a handler that throws before its query leaves behind. *)
Definition threw {S : Type} (e : JSError) (db : S) : Outcome S :=
  {| response := None; thrown := Some e; console := []; issued := [];
     store := db |}.

(** What a handler that sends one response after one query leaves
    behind. *)
Definition answered {S : Type} (text : string) (values : JSValue)
    (st : nat) (p : JSValue) (db : S) : Outcome S :=
  {| response := Some {| status := st; payload := p |}; thrown := None;
     console := []; issued := [(text, values)]; store := db |}.

(** The answer of the [.catch] branch to an error without detail. *)
Definition rejected_400 : Response :=
  {| status := 400; payload := message_body "Error: undefined" |}.

(** The key of a stored row, and the test a non-empty IN list of names
    performs on it. *)
Definition key_of (r : Pg.Row) : option string := Pg.row_get r "formatted_com_name".

Definition present (names : list string) (r : Pg.Row) : bool :=
  match key_of r with
  | Some s => existsb (String.eqb s) names
  | None => false
  end.

(** The keys a relation holds. *)
Definition stored_keys (db : list Pg.Row) : list string := omap key_of db.

(** The table of the schema file with the column [Habitat] declared,
    where the statements of the create and update routes place it. *)
Definition Birds_with_habitat : Pg.Table :=
  {| Pg.table_name := "Birds";
     Pg.table_columns :=
       (firstn 11 (Pg.table_columns Pg.Birds)
        ++ [Pg.text_column "Habitat"]
        ++ skipn 11 (Pg.table_columns Pg.Birds))%list |}.

(** The row a bird record becomes: one column per attribute. *)
Definition bird_row (b : Model.IBird) : Pg.Row :=
  [("formatted_com_name", Some (Model.formattedComName (Model.names b)));
   ("com_name", Some (Model.comName (Model.names b)));
   ("sci_name", Some (Model.sciName (Model.names b)));
   ("preview_photo", Some (Model.previewPhoto (Model.photos b)));
   ("male_breeding_photo", Some (Model.maleBreedingPhoto (Model.photos b)));
   ("male_nonbreeding_photo", Some (Model.maleNonbreedingPhoto (Model.photos b)));
   ("female_photo", Some (Model.femalePhoto (Model.photos b)));
   ("sound", Some (Model.sound b));
   ("short_desc", Some (Model.shortDesc b));
   ("long_desc", Some (Model.longDesc b));
   ("how_to_find", Some (Model.howToFind b));
   ("habitat", Some (Model.habitat b));
   ("learn_more_link", Some (Model.learnMoreLink b))].

(** ** Sample data *)

Module Sample.

Definition render (v : JSValue) : string := "[composite]".

Definition robin : Pg.Row :=
  [("formatted_com_name", Some "AmericanRobin");
   ("com_name", Some "American Robin");
   ("sci_name", Some "Turdus migratorius");
   ("preview_photo", Some "robin.jpg");
   ("male_breeding_photo", None);
   ("male_nonbreeding_photo", None);
   ("female_photo", None);
   ("sound", Some "robin.mp3");
   ("short_desc", Some "A thrush with a red breast");
   ("long_desc", None);
   ("how_to_find", Some "Look on lawns");
   ("learn_more_link", None)].

Definition robin_bird : Model.IBird :=
  {| Model.names :=
       {| Model.formattedComName := "AmericanRobin";
          Model.comName := "American Robin";
          Model.sciName := "Turdus migratorius" |};
     Model.photos :=
       {| Model.previewPhoto := "robin.jpg";
          Model.maleBreedingPhoto := "robin-m.jpg";
          Model.maleNonbreedingPhoto := "robin-mn.jpg";
          Model.femalePhoto := "robin-f.jpg" |};
     Model.sound := "robin.mp3";
     Model.shortDesc := "A thrush with a red breast";
     Model.longDesc := "A common thrush of gardens and woods";
     Model.howToFind := "Look on lawns";
     Model.habitat := "Gardens and woodland";
     Model.learnMoreLink := "https://example.org/robin" |}.

Definition robin_body : JSValue := bird_body robin_bird.

Definition names_request (names : list string) : Request :=
  {| body := JObj [("birds", JArr (List.map JStr names));
                   ("birdNames", JArr (List.map JStr names))];
     params := [] |}.

Definition delete_request (names : list string) : Request :=
  {| body := JObj [("names", JArr (List.map JStr names))]; params := [] |}.

End Sample.

(** ** Route registration and mounting ([routes/open/index])

    [birdRouter] registers its five routes in source order and
    [openRoutes] mounts it under [/birds].  A request path is given by
    its segments; literal segments are compared without regard to letter
    case, as the framework does by default, and a GET route also serves
    HEAD.  [None] means that no handler of the router is run. *)

Module Routing.

Inductive Method : Type := GET | HEAD | POST | PUT | DELETE | OtherMethod.

Inductive Pattern : Type :=
| Root                       (* '/' *)
| Literal (segment : string) (* '/all' *)
| Param (name : string).     (* '/:formattedComName' *)

Record Route : Type := {
  route_method : Method;
  route_path : Pattern;
  route_handler : Request → Action
}.

Record HttpRequest : Type := {
  http_method : Method;
  http_path : list string;
  http_body : JSValue
}.

Definition Method_eqb (a b : Method) : bool :=
  match a, b with
  | GET, GET | HEAD, HEAD | POST, POST | PUT, PUT | DELETE, DELETE
  | OtherMethod, OtherMethod => true
  | _, _ => false
  end.

(** A route registered for [registered] serves method [m]. *)
Definition handles (registered m : Method) : bool :=
  Method_eqb registered m
  || (Method_eqb registered GET && Method_eqb m HEAD).

(** The route parameters a path yields, when it matches. *)
Definition match_path (p : Pattern) (segments : list string)
    : option (list (string * string)) :=
  match p, segments with
  | Root, [] => Some []
  | Literal l, [x] =>
      if String.eqb (Pg.fold_case x) (Pg.fold_case l) then Some [] else None
  | Param name, [x] => Some [(name, x)]
  | _, _ => None
  end.

Definition birdRouter : list Route :=
  [ {| route_method := GET; route_path := Literal "all";
       route_handler := BirdRouter.get_all |};
    {| route_method := GET; route_path := Root;
       route_handler := BirdRouter.get_by_names |};
    {| route_method := PUT; route_path := Param "formattedComName";
       route_handler := BirdRouter.put |};
    {| route_method := POST; route_path := Root;
       route_handler := BirdRouter.post |};
    {| route_method := DELETE; route_path := Root;
       route_handler := BirdRouter.delete |} ].

Definition route_matches (m : Method) (segments : list string) (r : Route) : bool :=
  handles (route_method r) m
  && match match_path (route_path r) segments with
     | Some _ => true
     | None => false
     end.

(** The first registered route that matches runs its handler. *)
Definition handle (routes : list Route) (m : Method) (segments : list string)
    (b : JSValue) : option Action :=
  match List.find (route_matches m segments) routes with
  | Some r =>
      match match_path (route_path r) segments with
      | Some ps => Some (route_handler r {| body := b; params := ps |})
      | None => None
      end
  | None => None
  end.

(** [openRoutes.use('/birds', birdRouter)] *)
Definition openRoutes (req : HttpRequest) : option Action :=
  match http_path req with
  | mount :: rest =>
      if String.eqb (Pg.fold_case mount) "birds"
      then handle birdRouter (http_method req) rest (http_body req)
      else None
  | [] => None
  end.

End Routing.

(** ** Further vocabulary *)

(** What the validation middleware does with a request it turns down. *)
Definition validation_rejection : Action :=
  Log (LogText "Invalid or missing Birds")
    (Send 400 (message_body "Invalid or missing Bird - please refer to documentation")).

(** The five handlers of the router. *)
Definition handlers : list (Request → Action) :=
  [BirdRouter.get_all; BirdRouter.get_by_names; BirdRouter.put;
   BirdRouter.post; BirdRouter.delete].

(** The four handlers that answer a rejected query from [on_error_400]. *)
Definition detail_handlers : list (Request → Action) :=
  [BirdRouter.get_by_names; BirdRouter.put; BirdRouter.post; BirdRouter.delete].

(** A request is handled in one piece: at most one query; an error is
    thrown only before anything was queried, logged or stored, and then
    nothing is sent; otherwise exactly one response is sent. *)
Definition one_piece {S : Type} (db : S) (o : Outcome S) : Prop :=
  (length (issued o) ≤ 1)%nat
  ∧ match thrown o with
    | Some _ => response o = None ∧ issued o = [] ∧ console o = [] ∧ store o = db
    | None => is_Some (response o)
    end.

(** The column a body field is named after: [sciName] is [sci_name]. *)
Definition camel_to_snake (field : string) : string :=
  string_of_list_ascii
    (flat_map (fun c => if Pg.is_upper c then ["_"%char; Pg.lower c] else [c])
       (list_ascii_of_string field)).

(** The bound values of a list of names. *)
Definition bound_names (names : list string) : JSValue := JArr (List.map JStr names).

(** A lookup or delete request that carries the names under every field
    the routes read. *)
Definition names_body (names : list string) : JSValue :=
  JObj [("birds", bound_names names); ("birdNames", bound_names names);
        ("names", bound_names names)].

(** * Properties *)

(** ** Placeholder lists *)

Lemma placeholders_array (elems : list JSValue) :
  BirdRouter.placeholders (JArr elems) = Normal (placeholder_list (length elems)).
Proof.
  unfold BirdRouter.placeholders, placeholder_list, call_map.
  f_equal. f_equal.
  change (List.map placeholder (seq 1 (length elems)))
    with (placeholder <$> seq 1 (length elems)).
  rewrite <- (imap_seq elems placeholder 1).
  apply imap_ext. intros i x _. unfold placeholder.
  by rewrite Nat.add_comm.
Qed.

Lemma placeholders_not_array (v : JSValue) :
  isArray v = false →
  ∃ e, BirdRouter.placeholders v = Abrupt e.
Proof.
  unfold BirdRouter.placeholders.
  destruct v; simpl; intros H; try discriminate; eauto.
Qed.

Module PgFacts.
Import Pg.

Lemma chars_app (s1 s2 : string) : chars (s1 ++ s2) = (chars s1 ++ chars s2)%list.
Proof. induction s1 as [|c s1 IH]; simpl; [done | by rewrite IH]. Qed.

Lemma lex_chars_app (cs1 cs2 : list ascii) (st : LexState) :
  lex_chars (cs1 ++ cs2) st = lex_chars cs2 (lex_chars cs1 st).
Proof. apply fold_left_app. Qed.

(** Digits extend the parameter being read. *)
Lemma lex_digits (d : uint) (ds : list ascii) (toks : list Token) :
  lex_chars (chars (NilEmpty.string_of_uint d)) (Some (PParam ds, toks))
  = Some (PParam (rev (chars (NilEmpty.string_of_uint d)) ++ ds), toks).
Proof.
  revert ds.
  induction d as [|d IH|d IH|d IH|d IH|d IH|d IH|d IH|d IH|d IH|d IH];
    intros ds; [done | ..];
    cbn [NilEmpty.string_of_uint chars list_ascii_of_string lex_chars fold_left];
    (etrans; [apply IH |]);
    cbn [rev]; by rewrite <- app_assoc.
Qed.

Lemma dec_nonempty (k : nat) : chars (dec k) ≠ [].
Proof.
  unfold dec. intros H.
  assert (Hs : NilEmpty.string_of_uint (Nat.to_uint k) = "").
  { rewrite <- (string_of_list_ascii_of_string (NilEmpty.string_of_uint _)).
    unfold chars in H. by rewrite H. }
  pose proof (NilEmpty.usu (Nat.to_uint k)) as Hu. rewrite Hs in Hu.
  simpl in Hu. injection Hu as Hu.
  pose proof (Unsigned.of_to k) as Hk. rewrite <- Hu in Hk. simpl in Hk.
  subst k. discriminate Hu.
Qed.

(** A completed [$k] is read back as parameter [k]. *)
Lemma flush_param (k : nat) (toks : list Token) :
  flush (PParam (rev (chars (dec k)))) toks = Some (TParam k :: toks).
Proof.
  unfold flush.
  destruct (rev (chars (dec k))) as [|c ds] eqn:E.
  - apply (f_equal (@rev ascii)) in E. rewrite rev_involutive in E.
    by destruct (dec_nonempty k).
  - rewrite <- E, rev_involutive. unfold chars.
    rewrite string_of_list_ascii_of_string. unfold dec.
    by rewrite NilEmpty.usu, Unsigned.of_to.
Qed.

Lemma lex_placeholder (k : nat) (toks : list Token) :
  lex_chars (chars (placeholder k)) (Some (PNone, toks))
  = Some (PParam (rev (chars (dec k))), toks).
Proof.
  unfold placeholder.
  change (chars ("$" ++ dec k)) with ("$"%char :: chars (dec k)).
  cbn [lex_chars fold_left].
  change (lex_step (Some (PNone, toks)) "$"%char) with (Some (PParam [], toks)).
  unfold dec. etrans; [apply lex_digits |]. by rewrite app_nil_r.
Qed.

Lemma join_cons2 (sep x y : string) (l : list string) :
  join sep (x :: y :: l) = x ++ sep ++ join sep (y :: l).
Proof. done. Qed.

(** Lexing [$a,...,$(a+n)] leaves the last parameter pending. *)
Lemma lex_placeholder_list (n a : nat) (toks : list Token) :
  lex_chars (chars (join "," (List.map placeholder (seq a (S n))))) (Some (PNone, toks))
  = Some (PParam (rev (chars (dec (a + n)))), (rev (comma_args (seq a n)) ++ toks)%list).
Proof.
  revert a toks. induction n as [|n IH]; intros a toks.
  - simpl. rewrite Nat.add_0_r. apply lex_placeholder.
  - change (seq a (S (S n))) with (a :: seq (S a) (S n)).
    cbn [List.map]. change (seq (S a) (S n)) with (S a :: seq (S (S a)) n).
    cbn [List.map]. rewrite join_cons2.
    change (S a :: seq (S (S a)) n) with (seq (S a) (S n)).
    rewrite !chars_app, !lex_chars_app, lex_placeholder.
    change (chars ",") with [","%char].
    cbn [lex_chars fold_left].
    assert (Hc : lex_step (Some (PParam (rev (chars (dec a))), toks)) ","%char
                 = Some (PNone, TSym Comma :: TParam a :: toks)).
    { unfold lex_step. change (is_space ","%char) with false.
      change (sym_of ","%char) with (Some Comma). cbv iota.
      by rewrite flush_param. }
    rewrite Hc.
    change (fold_left lex_step ?cs ?st) with (lex_chars cs st).
    change (map placeholder (seq (S a) (S n))) with (List.map placeholder (seq (S a) (S n))).
    rewrite (IH (S a)).
    f_equal. f_equal.
    + by rewrite Nat.add_succ_r.
    + change (seq a (S n)) with (a :: seq (S a) n). cbn [comma_args flat_map].
      change (flat_map (fun n => [TParam n; TSym Comma]) (seq (S a) n))
        with (comma_args (seq (S a) n)).
      cbn [app rev]. by rewrite <- !app_assoc.
Qed.

Lemma lex_close (k : nat) (toks : list Token) :
  finish (lex_chars (chars ");") (Some (PParam (rev (chars (dec k))), toks)))
  = Some (rev toks ++ [TParam k; TSym RParen; TSym Semi])%list.
Proof.
  change (chars ");") with [")"%char; ";"%char].
  cbn [lex_chars fold_left].
  assert (Hc : lex_step (Some (PParam (rev (chars (dec k))), toks)) ")"%char
               = Some (PNone, TSym RParen :: TParam k :: toks)).
  { unfold lex_step. change (is_space ")"%char) with false.
    change (sym_of ")"%char) with (Some RParen). cbv iota.
    by rewrite flush_param. }
  rewrite Hc.
  change (lex_step (Some (PNone, ?t)) ";"%char) with (Some (PNone, TSym Semi :: t)).
  cbn [finish flush rev]. by rewrite <- !app_assoc.
Qed.

(** A statement text that ends in an IN list of [n + 1] placeholders. *)
Lemma lex_in_clause (prefix : string) (toks : list Token) (n : nat) :
  lex_chars (chars prefix) (Some (PNone, [])) = Some (PNone, toks) →
  lex (prefix ++ placeholder_list (S n) ++ ");")
  = Some (rev toks ++ comma_args (seq 1 n) ++ [TParam (S n); TSym RParen; TSym Semi])%list.
Proof.
  intros Hp. unfold lex, placeholder_list.
  change (list_ascii_of_string ?s) with (chars s).
  rewrite !chars_app, !lex_chars_app, Hp, lex_placeholder_list, lex_close.
  by rewrite rev_app_distr, rev_involutive, <- app_assoc.
Qed.

Lemma parse_args_comma_args (l : list nat) (m : nat) (rest : list Token) :
  parse_args (comma_args l ++ TParam m :: TSym RParen :: rest)
  = Some ((l ++ [m])%list, rest).
Proof.
  induction l as [|x l IH]; [done |].
  cbn [comma_args flat_map app].
  change (flat_map (fun n => [TParam n; TSym Comma]) l) with (comma_args l).
  cbn [parse_args]. by rewrite IH.
Qed.

Lemma parse_select_in (n : nat) :
  parse (BirdRouter.select_in_query (placeholder_list (S n)))
  = Some (SelectIn "birds" "formatted_com_name" (seq 1 (S n))).
Proof.
  unfold parse, BirdRouter.select_in_query.
  rewrite (lex_in_clause _
             (rev [TWord "select"; TSym Star; TWord "from"; TWord "birds";
                   TWord "where"; TWord "formatted_com_name"; TWord "in";
                   TSym LParen])) by (vm_compute; reflexivity).
  rewrite rev_involutive. cbn [mbind option_bind app].
  cbv [parse_tokens parse_select parse_where_in keyword symbol ident Sym_eqb
       String.eqb Ascii.eqb Bool.eqb at_end mbind option_bind].
  rewrite parse_args_comma_args, seq_S. reflexivity.
Qed.

Lemma parse_delete_in (n : nat) :
  parse (BirdRouter.delete_in_query (placeholder_list (S n)))
  = Some (DeleteIn "birds" "formatted_com_name" (seq 1 (S n))).
Proof.
  unfold parse, BirdRouter.delete_in_query.
  rewrite (lex_in_clause _
             (rev [TWord "delete"; TWord "from"; TWord "birds";
                   TWord "where"; TWord "formatted_com_name"; TWord "in";
                   TSym LParen])) by (vm_compute; reflexivity).
  rewrite rev_involutive. cbn [mbind option_bind app].
  cbv [parse_tokens parse_delete parse_where_in keyword symbol ident Sym_eqb
       String.eqb Ascii.eqb Bool.eqb at_end mbind option_bind].
  rewrite parse_args_comma_args, seq_S. reflexivity.
Qed.

(** An empty IN list is not a statement. *)
Lemma parse_select_in_empty :
  parse (BirdRouter.select_in_query (placeholder_list 0)) = None.
Proof. vm_compute. reflexivity. Qed.

Lemma parse_delete_in_empty :
  parse (BirdRouter.delete_in_query (placeholder_list 0)) = None.
Proof. vm_compute. reflexivity. Qed.

End PgFacts.

(** ** Binding and execution of the IN statements *)

Module StoreFacts.
Import Pg PgFacts.

Lemma params_required_seq (n : nat) : params_required (seq 1 n) = n.
Proof.
  unfold params_required. induction n as [|n IH]; [done |].
  rewrite seq_S, list_max_app, IH. simpl. lia.
Qed.

Lemma params_determined_seq (n : nat) : params_determined (seq 1 n) = true.
Proof.
  unfold params_determined. rewrite params_required_seq.
  apply andb_true_iff. split; apply forallb_forall; intros k Hk.
  - apply in_seq in Hk. apply Nat.leb_le. lia.
  - apply existsb_exists. exists k. split; [done | apply Nat.eqb_refl].
Qed.

Lemma arg_seq (bound : list (option string)) :
  List.map (arg bound) (seq 1 (length bound)) = bound.
Proof.
  induction bound as [|v bound IH]; [done |].
  cbn [length seq List.map]. f_equal.
  rewrite <- seq_shift, List.map_map.
  rewrite <- IH at 2. apply List.map_ext_in. intros k Hk.
  apply in_seq in Hk. unfold arg.
  destruct k as [|k]; [lia |]. simpl. by rewrite Nat.sub_0_r.
Qed.

Lemma existsb_map_arg {A B : Type} (g : B → bool) (h : A → B) (l : list A) :
  existsb (fun x => g (h x)) l = existsb g (List.map h l).
Proof. induction l as [|x l IH]; simpl; [done | by rewrite IH]. Qed.

Lemma matches_seq (bound : list (option string)) (c : string) (r : Row) :
  matches bound c (seq 1 (length bound)) r = key_among bound c r.
Proof.
  unfold matches, key_among. destruct (row_get r c) as [s|]; [|done].
  rewrite (existsb_map_arg
             (fun v => match v with Some s' => String.eqb s s' | None => false end)
             (arg bound)).
  by rewrite arg_seq.
Qed.

Section Resolved.

Variable composite_text : JSValue → string.
Variable tbl : Table.
Hypothesis tbl_name : fold_case (table_name tbl) = "birds".
Hypothesis tbl_key : has_column tbl "formatted_com_name" = true.

Lemma analyse_select_in (n : nat) :
  analyse tbl (SelectIn "birds" "formatted_com_name" (seq 1 n)) = None.
Proof.
  unfold analyse. cbn [stmt_table stmt_columns stmt_params forallb].
  rewrite tbl_name, tbl_key, params_determined_seq. reflexivity.
Qed.

Lemma analyse_delete_in (n : nat) :
  analyse tbl (DeleteIn "birds" "formatted_com_name" (seq 1 n)) = None.
Proof.
  unfold analyse. cbn [stmt_table stmt_columns stmt_params forallb].
  rewrite tbl_name, tbl_key, params_determined_seq. reflexivity.
Qed.

Lemma query_select_in (vs : list JSValue) (db : list Row) :
  vs ≠ [] →
  query composite_text tbl
    (BirdRouter.select_in_query (placeholder_list (length vs))) (JArr vs) db
  = (let found := List.filter
                    (key_among (List.map (prepareValue composite_text) vs)
                       "formatted_com_name") db in
     (fulfilled found (length found), db)).
Proof.
  intros Hvs. destruct vs as [|v vs]; [done |].
  unfold query. cbn [length]. rewrite parse_select_in, analyse_select_in.
  cbn [values_list stmt_params]. rewrite length_map, params_required_seq.
  cbn [length]. rewrite Nat.eqb_refl. cbn [execute].
  assert (He : ∀ r, matches (List.map (prepareValue composite_text) (v :: vs))
                      "formatted_com_name" (seq 1 (S (length vs))) r
                    = key_among (List.map (prepareValue composite_text) (v :: vs))
                        "formatted_com_name" r).
  { intros r. rewrite <- matches_seq. by rewrite length_map. }
  by rewrite (List.filter_ext _ _ He).
Qed.

Lemma query_delete_in (vs : list JSValue) (db : list Row) :
  vs ≠ [] →
  query composite_text tbl
    (BirdRouter.delete_in_query (placeholder_list (length vs))) (JArr vs) db
  = (let hit := key_among (List.map (prepareValue composite_text) vs)
                  "formatted_com_name" in
     (fulfilled [] (length (List.filter hit db)),
      List.filter (fun r => negb (hit r)) db)).
Proof.
  intros Hvs. destruct vs as [|v vs]; [done |].
  unfold query. cbn [length]. rewrite parse_delete_in, analyse_delete_in.
  cbn [values_list stmt_params]. rewrite length_map, params_required_seq.
  cbn [length]. rewrite Nat.eqb_refl. cbn [execute].
  assert (He : ∀ r, matches (List.map (prepareValue composite_text) (v :: vs))
                      "formatted_com_name" (seq 1 (S (length vs))) r
                    = key_among (List.map (prepareValue composite_text) (v :: vs))
                        "formatted_com_name" r).
  { intros r. rewrite <- matches_seq. by rewrite length_map. }
  rewrite (List.filter_ext _ _ He).
  rewrite (List.filter_ext (fun r => negb (matches _ _ _ r))
             (fun r => negb (key_among
                               (List.map (prepareValue composite_text) (v :: vs))
                               "formatted_com_name" r)));
    [done | intros r; by rewrite He].
Qed.

(** An empty IN list is rejected before anything is bound. *)
Lemma query_select_in_empty (values : JSValue) (db : list Row) :
  query composite_text tbl (BirdRouter.select_in_query (placeholder_list 0)) values db
  = (Rejected syntax_error, db).
Proof. unfold query. by rewrite parse_select_in_empty. Qed.

Lemma query_delete_in_empty (values : JSValue) (db : list Row) :
  query composite_text tbl (BirdRouter.delete_in_query (placeholder_list 0)) values db
  = (Rejected syntax_error, db).
Proof. unfold query. by rewrite parse_delete_in_empty. Qed.

End Resolved.

Lemma Birds_name : fold_case (table_name Birds) = "birds".
Proof. reflexivity. Qed.

Lemma Birds_key : has_column Birds "formatted_com_name" = true.
Proof. reflexivity. Qed.

End StoreFacts.

(** ** Running queries *)

Section RunFacts.

Context {S : Type} (pool : Pool S).

Lemma run_query_fulfilled text values k1 k2 (db db' : S) result :
  pool text values db = (Fulfilled result, db') →
  run pool (Query text values k1 k2) db
  = queried (text, values) (run pool (k1 result) db').
Proof. intros H. simpl. by rewrite H. Qed.

Lemma run_query_rejected text values k1 k2 (db db' : S) error :
  pool text values db = (Rejected error, db') →
  run pool (Query text values k1 k2) db
  = queried (text, values) (run pool (k2 error) db').
Proof. intros H. simpl. by rewrite H. Qed.

End RunFacts.

(** ** The lookup-by-names route: validation and handler *)

Lemma mwValidBirdsBody_array (request : Request) (elems : list JSValue) (next : Action) :
  prop (body request) "birds" = Normal (JArr elems) →
  BirdRouter.mwValidBirdsBody request next = next.
Proof. intros H. unfold BirdRouter.mwValidBirdsBody. by rewrite H. Qed.

(** C1. The middleware of GET / lets a request through exactly when its
    body field [birds] is an array, while the handler's behaviour is a
    function of the body field [birdNames] alone.  So there is a request,
    with [birds] an array and [birdNames] absent, that passes validation
    and whose handler throws a TypeError on [.map] before any query is
    issued: no response is produced. *)
Theorem get_by_names_validates_birds_reads_birdNames :
  (∀ request : Request,
      (∃ elems, prop (body request) "birds" = Normal (JArr elems))
      ↔ (∀ next, BirdRouter.mwValidBirdsBody request next = next))
  ∧ (∀ r1 r2 : Request,
        prop (body r1) "birdNames" = prop (body r2) "birdNames" →
        BirdRouter.get_by_names_handler r1 = BirdRouter.get_by_names_handler r2)
  ∧ (∃ request : Request,
        (∃ elems, prop (body request) "birds" = Normal (JArr elems))
        ∧ prop (body request) "birdNames" = Normal JUndefined
        ∧ (∀ next, BirdRouter.mwValidBirdsBody request next = next)
        ∧ ∀ (S : Type) (pool : Pool S) (db : S),
            run pool (BirdRouter.get_by_names request) db
            = threw (TypeError_read_of_nullish "map") db).
Proof.
  split; [|split].
  - intros request. split.
    + intros [elems H] next. by apply (mwValidBirdsBody_array _ elems).
    + intros H. specialize (H (Send 200 JNull)).
      unfold BirdRouter.mwValidBirdsBody in H.
      destruct (prop (body request) "birds") as [v|e]; [|discriminate H].
      destruct v; simpl in H; try discriminate H. eauto.
  - intros r1 r2 H. unfold BirdRouter.get_by_names_handler. by rewrite H.
  - exists {| body := JObj [("birds", JArr [JStr "AmericanRobin"])]; params := [] |}.
    split; [by eexists |]. split; [done |]. split; [done |].
    intros S pool db. reflexivity.
Qed.

(** ** The delete route *)

(** DELETE / is registered without middleware: whatever else the body
    holds, an array under [names] goes straight to the query. *)
Lemma delete_unvalidated (request : Request) (names : list JSValue) :
  prop (body request) "names" = Normal (JArr names) →
  BirdRouter.delete request
  = Query (BirdRouter.delete_in_query (placeholder_list (length names)))
      (JArr names) (BirdRouter.delete_then (JArr names)) BirdRouter.on_error_400.
Proof.
  intros H. unfold BirdRouter.delete. by rewrite H, placeholders_array.
Qed.

(** C10. DELETE / runs its handler unguarded; for every request whose
    body field [names] is not an array the handler throws a TypeError,
    at the [.map] call whenever the field could be read at all, before
    any query is issued: no response is produced and the store is not
    touched. *)
Theorem delete_throws_when_names_not_array
    (request : Request)
    (Hnot : ∀ elems, prop (body request) "names" ≠ Normal (JArr elems)) :
  ∃ e : JSError,
    BirdRouter.delete request = Throw e
    ∧ (∀ names, prop (body request) "names" = Normal names →
                e = if is_nullish names then TypeError_read_of_nullish "map"
                    else TypeError_not_a_function "map")
    ∧ ∀ (S : Type) (pool : Pool S) (db : S),
        run pool (BirdRouter.delete request) db = threw e db.
Proof.
  unfold BirdRouter.delete.
  destruct (prop (body request) "names") as [names|e0] eqn:Hread.
  - exists (if is_nullish names then TypeError_read_of_nullish "map"
            else TypeError_not_a_function "map").
    assert (Hthrow : match BirdRouter.placeholders names with
                     | Normal ph =>
                         Query (BirdRouter.delete_in_query ph) names
                           (BirdRouter.delete_then names) BirdRouter.on_error_400
                     | Abrupt e => Throw e
                     end
                     = Throw (if is_nullish names then TypeError_read_of_nullish "map"
                              else TypeError_not_a_function "map")).
    { destruct names; try reflexivity. by destruct (Hnot elems). }
    rewrite Hthrow. split; [done |]. split.
    + by intros names' [= <-].
    + reflexivity.
  - exists e0. split; [done |]. split; [intros names H; discriminate H |].
    reflexivity.
Qed.

Lemma delete_throws_when_names_not_array_witness :
  ∃ e : JSError,
    BirdRouter.delete {| body := JObj [("names", JStr "AmericanRobin")]; params := [] |}
    = Throw e
    ∧ (∀ names,
          prop (JObj [("names", JStr "AmericanRobin")]) "names" = Normal names →
          e = if is_nullish names then TypeError_read_of_nullish "map"
              else TypeError_not_a_function "map")
    ∧ ∀ (S : Type) (pool : Pool S) (db : S),
        run pool
          (BirdRouter.delete
             {| body := JObj [("names", JStr "AmericanRobin")]; params := [] |}) db
        = threw e db.
Proof.
  apply (delete_throws_when_names_not_array
           {| body := JObj [("names", JStr "AmericanRobin")]; params := [] |}).
  intros elems H. simpl in H. discriminate H.
Defined.

(** C5. DELETE / with a names array: when the query reports at least
    one affected row the response is 200 with the count message and the
    requested list echoed verbatim under [birdNames]; when it reports
    none the response is 404 with the fixed message and the same echo. *)
Theorem delete_echoes_requested_names
    {S : Type} (pool : Pool S) (db db' : S)
    (request : Request) (names : list JSValue) (result : QueryResult)
    (Hnames : prop (body request) "names" = Normal (JArr names))
    (Hquery : pool (BirdRouter.delete_in_query (placeholder_list (length names)))
                (JArr names) db = (Fulfilled result, db')) :
  let o := run pool (BirdRouter.delete request) db in
  (0 < rowCount result →
   response o
   = Some {| status := 200;
             payload :=
               JObj [("message",
                       JStr (dec (rowCount result) ++ " bird(s) deleted successfully."));
                     ("birdNames", JArr names)] |})
  ∧ (rowCount result = 0 →
     response o
     = Some {| status := 404;
               payload :=
                 JObj [("message", JStr "No birds found with the provided names.");
                       ("birdNames", JArr names)] |}).
Proof.
  intros o. subst o.
  rewrite (delete_unvalidated _ _ Hnames),
    (run_query_fulfilled _ _ _ _ _ _ _ _ Hquery).
  unfold BirdRouter.delete_then. split; intros Hc.
  - apply Nat.ltb_lt in Hc. by rewrite Hc.
  - by rewrite Hc.
Qed.

Lemma delete_echoes_requested_names_witness :
  response (run (Pg.query Sample.render Pg.Birds)
              (BirdRouter.delete (Sample.delete_request ["AmericanRobin"; "NotARealBird"]))
              [Sample.robin])
  = Some {| status := 200;
            payload :=
              JObj [("message", JStr "1 bird(s) deleted successfully.");
                    ("birdNames", JArr [JStr "AmericanRobin"; JStr "NotARealBird"])] |}.
Proof.
  refine (proj1 (delete_echoes_requested_names
                   (Pg.query Sample.render Pg.Birds) [Sample.robin] []
                   (Sample.delete_request ["AmericanRobin"; "NotARealBird"])
                   [JStr "AmericanRobin"; JStr "NotARealBird"]
                   {| rowCount := 1; rows := [] |} eq_refl _) _).
  - vm_compute. reflexivity.
  - apply Nat.lt_0_succ.
Defined.

(** ** The list-all route *)

Lemma query_select_all (composite_text : JSValue → string) (db : list Pg.Row) :
  Pg.query composite_text Pg.Birds BirdRouter.get_all_query JUndefined db
  = (Pg.fulfilled db (length db), db).
Proof. reflexivity. Qed.

(** C8. GET /all: a result that reports at least one row gives 200 with
    the array of all its rows, a result that reports none gives 404 with
    a fixed message, and a failed query gives 500 with one fixed message
    for every error, the error itself going to the console only.
    Against the store the count is the number of rows of the relation. *)
Theorem get_all_responses {S : Type} (pool : Pool S) (db : S) (request : Request) :
  let o := run pool (BirdRouter.get_all request) db in
  (∀ result db',
      pool BirdRouter.get_all_query JUndefined db = (Fulfilled result, db') →
      ((1 ≤ rowCount result)%nat →
       response o = Some {| status := 200; payload := JArr (rows result) |})
      ∧ (rowCount result = 0 →
         response o
         = Some {| status := 404;
                   payload := message_body "No birds were found in the database" |}))
  ∧ (∀ error db',
        pool BirdRouter.get_all_query JUndefined db = (Rejected error, db') →
        response o
        = Some {| status := 500;
                  payload := message_body "server error - contact support" |}
        ∧ console o = [LogText "DB Query error on GET all"; LogError error])
  ∧ (∀ composite_text (rs : list Pg.Row),
        response (run (Pg.query composite_text Pg.Birds) (BirdRouter.get_all request) rs)
        = Some (match rs with
                | [] => {| status := 404;
                           payload := message_body "No birds were found in the database" |}
                | _ => {| status := 200; payload := JArr (List.map Pg.row_json rs) |}
                end)).
Proof.
  intros o. subst o. unfold BirdRouter.get_all. split; [|split].
  - intros result db' H. rewrite (run_query_fulfilled _ _ _ _ _ _ _ _ H).
    unfold BirdRouter.get_all_then. split; intros Hc.
    + apply Nat.leb_le in Hc. by rewrite Hc.
    + by rewrite Hc.
  - intros error db' H. by rewrite (run_query_rejected _ _ _ _ _ _ _ _ H).
  - intros composite_text rs.
    rewrite (run_query_fulfilled _ _ _ _ _ _ _ _ (query_select_all _ _)).
    by destruct rs.
Qed.

Lemma get_all_responses_witness :
  response (run (Pg.query Sample.render Pg.Birds)
              (BirdRouter.get_all {| body := JObj []; params := [] |})
              [Sample.robin])
  = Some {| status := 200; payload := JArr [Pg.row_json Sample.robin] |}.
Proof.
  refine (proj1 (proj1 (get_all_responses
                          (Pg.query Sample.render Pg.Birds) [Sample.robin]
                          {| body := JObj []; params := [] |})
                   {| rowCount := 1; rows := [Pg.row_json Sample.robin] |}
                   [Sample.robin] _) _).
  - vm_compute. reflexivity.
  - apply le_n.
Defined.

(** ** The IN clause *)

Lemma get_by_names_handler_array (request : Request) (names : list JSValue) :
  prop (body request) "birdNames" = Normal (JArr names) →
  BirdRouter.get_by_names_handler request
  = Query (BirdRouter.select_in_query (placeholder_list (length names)))
      (JArr names) BirdRouter.get_by_names_then BirdRouter.on_error_400.
Proof.
  intros H. unfold BirdRouter.get_by_names_handler.
  by rewrite H, placeholders_array.
Qed.

Lemma arg_lookup {A : Type} (f : A → option string) (l : list A) (i : nat) (x : A) :
  l !! i = Some x → Pg.arg (List.map f l) (Datatypes.S i) = f x.
Proof.
  unfold Pg.arg. cbn [Nat.sub]. rewrite Nat.sub_0_r.
  revert i. induction l as [|y l IH]; intros [|i] H; try discriminate H.
  - by injection H as ->.
  - apply (IH i H).
Qed.

(** C9. For a non-empty array of n names, lookup-by-names and delete
    build their statement from the placeholder list [$1,...,$n] and pass
    the array itself as the parameter list; the statement parses to an
    IN list of exactly the parameters 1 to n in that order, and
    parameter [$(i+1)] is bound to the name at index i. *)
Theorem in_clause_has_one_placeholder_per_name
    (request : Request) (names : list JSValue) (Hne : names ≠ []) :
  let n := length names in
  placeholder_list n = join "," (List.map (fun k => "$" ++ dec k) (seq 1 n))
  ∧ (prop (body request) "birdNames" = Normal (JArr names) →
     BirdRouter.get_by_names_handler request
     = Query (BirdRouter.select_in_query (placeholder_list n)) (JArr names)
         BirdRouter.get_by_names_then BirdRouter.on_error_400)
  ∧ (prop (body request) "names" = Normal (JArr names) →
     BirdRouter.delete request
     = Query (BirdRouter.delete_in_query (placeholder_list n)) (JArr names)
         (BirdRouter.delete_then (JArr names)) BirdRouter.on_error_400)
  ∧ Pg.parse (BirdRouter.select_in_query (placeholder_list n))
    = Some (Pg.SelectIn "birds" "formatted_com_name" (seq 1 n))
  ∧ Pg.parse (BirdRouter.delete_in_query (placeholder_list n))
    = Some (Pg.DeleteIn "birds" "formatted_com_name" (seq 1 n))
  ∧ length (seq 1 n) = n
  ∧ (∀ composite_text i name,
        names !! i = Some name →
        seq 1 n !! i = Some (Datatypes.S i)
        ∧ Pg.arg (List.map (Pg.prepareValue composite_text) names) (Datatypes.S i)
          = Pg.prepareValue composite_text name).
Proof.
  intros n. subst n.
  destruct names as [|x names]; [done |]. cbn [length].
  split; [done |].
  split; [apply get_by_names_handler_array |].
  split; [apply delete_unvalidated |].
  split; [apply PgFacts.parse_select_in |].
  split; [apply PgFacts.parse_delete_in |].
  split; [apply length_seq |].
  intros composite_text i name Hi. split.
  - apply lookup_lt_Some in Hi. by rewrite lookup_seq_lt.
  - by apply arg_lookup.
Qed.

Lemma in_clause_has_one_placeholder_per_name_witness :
  BirdRouter.get_by_names_handler (Sample.names_request ["AmericanRobin"; "NotARealBird"])
  = Query "SELECT * FROM Birds WHERE Formatted_Com_Name IN ($1,$2);"
      (JArr [JStr "AmericanRobin"; JStr "NotARealBird"])
      BirdRouter.get_by_names_then BirdRouter.on_error_400.
Proof.
  refine (proj1 (proj2 (in_clause_has_one_placeholder_per_name
                          (Sample.names_request ["AmericanRobin"; "NotARealBird"])
                          [JStr "AmericanRobin"; JStr "NotARealBird"] _)) eq_refl).
  discriminate.
Defined.

(** ** Lookup by names against the store *)

(** The statement built from an empty array is rejected, and the
    rejection is answered from the [.catch] branch. *)
Lemma lookup_empty_outcome
    (composite_text : JSValue → string) (request : Request)
    (birds : list JSValue) (db : list Pg.Row) :
  prop (body request) "birds" = Normal (JArr birds) →
  prop (body request) "birdNames" = Normal (JArr []) →
  run (Pg.query composite_text Pg.Birds) (BirdRouter.get_by_names request) db
  = answered "SELECT * FROM Birds WHERE Formatted_Com_Name IN ();" (JArr [])
      400 (message_body "Error: undefined") db.
Proof.
  intros Hbirds Hnames. unfold BirdRouter.get_by_names.
  rewrite (mwValidBirdsBody_array _ _ _ Hbirds).
  rewrite (get_by_names_handler_array _ [] Hnames).
  by rewrite (run_query_rejected _ _ _ _ _ _ _ _
                (StoreFacts.query_select_in_empty composite_text Pg.Birds _ db)).
Qed.

(** C2. Lookup-by-names with an empty array: the validator lets the
    request through, the handler builds an empty IN list, the store
    rejects the statement as a syntax error without a detail, and the
    [.catch] branch answers 400 where an empty result was expected. *)
Theorem lookup_with_empty_array_is_rejected
    (composite_text : JSValue → string) (db : list Pg.Row) :
  run (Pg.query composite_text Pg.Birds)
    (BirdRouter.get_by_names (Sample.names_request [])) db
  = answered "SELECT * FROM Birds WHERE Formatted_Com_Name IN ();" (JArr [])
      400 (message_body "Error: undefined") db.
Proof. by apply (lookup_empty_outcome _ _ []). Qed.

(** C4, at no names at all: zero names are supplied and zero are
    present, yet the answer is the 400 of the rejected statement and not
    200 with zero rows. *)
Theorem lookup_of_zero_names_is_an_error (composite_text : JSValue → string) :
  let o := run (Pg.query composite_text Pg.Birds)
             (BirdRouter.get_by_names
                {| body := JObj [("birds", JArr [JStr "AmericanRobin"]);
                                 ("birdNames", JArr [])];
                   params := [] |})
             [Sample.robin] in
  response o = Some rejected_400 ∧ store o = [Sample.robin].
Proof.
  cbv zeta.
  by rewrite (lookup_empty_outcome _ _ [JStr "AmericanRobin"]).
Qed.

Lemma key_among_names (composite_text : JSValue → string) (names : list string)
    (r : Pg.Row) :
  key_among
    (List.map (Pg.prepareValue composite_text) (List.map JStr names))
    "formatted_com_name" r
  = present names r.
Proof.
  unfold key_among, present, key_of.
  destruct (Pg.row_get r "formatted_com_name") as [s|]; [|done].
  induction names as [|x names IH]; [done |]. simpl. by rewrite IH.
Qed.

(** Off the empty array the route behaves as documented, over any
    table called [Birds] that has the key column: the rows of the
    relation whose key is among the names, with status 200, and the
    store is left as it was. *)
Lemma lookup_by_names_nonempty
    (composite_text : JSValue → string) (tbl : Pg.Table)
    (request : Request) (birds : list JSValue) (names : list string)
    (db : list Pg.Row) :
  Pg.fold_case (Pg.table_name tbl) = "birds" →
  Pg.has_column tbl "formatted_com_name" = true →
  names ≠ [] →
  prop (body request) "birds" = Normal (JArr birds) →
  prop (body request) "birdNames" = Normal (JArr (List.map JStr names)) →
  run (Pg.query composite_text tbl) (BirdRouter.get_by_names request) db
  = answered (BirdRouter.select_in_query (placeholder_list (length names)))
      (JArr (List.map JStr names)) 200
      (JArr (List.map Pg.row_json (List.filter (present names) db))) db.
Proof.
  intros Htbl Hcol Hne Hbirds Hnames. unfold BirdRouter.get_by_names.
  rewrite (mwValidBirdsBody_array _ _ _ Hbirds).
  rewrite (get_by_names_handler_array _ _ Hnames).
  assert (Hq := StoreFacts.query_select_in composite_text tbl Htbl Hcol
                  (List.map JStr names) db).
  rewrite length_map in *.
  rewrite (run_query_fulfilled _ _ _ _ _ _ _ _
             (Hq ltac:(by destruct names))).
  rewrite (List.filter_ext _ _ (key_among_names composite_text names)).
  reflexivity.
Qed.

(** ** Create and update against the schema *)

Lemma parse_insert_query :
  Pg.parse BirdRouter.insert_query
  = Some (Pg.Insert "birds"
            ["formatted_com_name"; "com_name"; "sci_name"; "preview_photo";
             "male_breeding_photo"; "male_nonbreeding_photo"; "female_photo";
             "sound"; "short_desc"; "long_desc"; "how_to_find"; "habitat";
             "learn_more_link"]
            (seq 1 13)).
Proof. vm_compute. reflexivity. Qed.

Lemma parse_update_query :
  Pg.parse BirdRouter.update_query
  = Some (Pg.Update "birds"
            [("com_name", 1); ("sci_name", 2); ("preview_photo", 3);
             ("male_breeding_photo", 4); ("male_nonbreeding_photo", 5);
             ("female_photo", 6); ("sound", 7); ("short_desc", 8);
             ("long_desc", 9); ("how_to_find", 10); ("habitat", 11);
             ("learn_more_link", 12)]
            "formatted_com_name" 13).
Proof. vm_compute. reflexivity. Qed.

(** The table definition has no [Habitat] column, so both statements
    fail name resolution, whatever is bound and whatever is stored. *)
Lemma query_insert_rejected (composite_text : JSValue → string) (values : JSValue)
    (db : list Pg.Row) :
  Pg.query composite_text Pg.Birds BirdRouter.insert_query values db
  = (Rejected Pg.undefined_column, db).
Proof. unfold Pg.query. rewrite parse_insert_query. reflexivity. Qed.

Lemma query_update_rejected (composite_text : JSValue → string) (values : JSValue)
    (db : list Pg.Row) :
  Pg.query composite_text Pg.Birds BirdRouter.update_query values db
  = (Rejected Pg.undefined_column, db).
Proof. unfold Pg.query. rewrite parse_update_query. reflexivity. Qed.

Lemma read_fields_nullish (b : JSValue) (n : string) (names : list string) :
  is_nullish b = true →
  BirdRouter.read_fields b (n :: names) = Abrupt (TypeError_read_of_nullish n).
Proof. by destruct b. Qed.

Lemma read_fields_readable (b : JSValue) (names : list string) :
  is_nullish b = false →
  ∃ vs, BirdRouter.read_fields b names = Normal vs ∧ length vs = length names.
Proof.
  intros Hb. induction names as [|n names [vs [IH Hl]]]; [by exists [] |].
  cbn [BirdRouter.read_fields]. rewrite IH.
  destruct b; try discriminate Hb; simpl; eexists; (split; [done | simpl; by rewrite Hl]).
Qed.

Lemma post_outcome (composite_text : JSValue → string) (request : Request)
    (db : list Pg.Row) :
  run (Pg.query composite_text Pg.Birds) (BirdRouter.post request) db
  = if is_nullish (body request)
    then threw (TypeError_read_of_nullish "formattedComName") db
    else match BirdRouter.read_fields (body request) BirdRouter.post_fields with
         | Normal vs =>
             answered BirdRouter.insert_query (JArr vs) 400
               (message_body "Error: undefined") db
         | Abrupt e => threw e db
         end.
Proof.
  unfold BirdRouter.post.
  destruct (is_nullish (body request)) eqn:Hb.
  - unfold BirdRouter.post_fields. by rewrite read_fields_nullish.
  - destruct (read_fields_readable _ BirdRouter.post_fields Hb) as [vs [-> _]].
    by rewrite (run_query_rejected _ _ _ _ _ _ _ _
                  (query_insert_rejected composite_text _ db)).
Qed.

Lemma put_outcome (composite_text : JSValue → string) (request : Request)
    (db : list Pg.Row) :
  run (Pg.query composite_text Pg.Birds) (BirdRouter.put request) db
  = if is_nullish (body request)
    then threw (TypeError_read_of_nullish "comName") db
    else match BirdRouter.read_fields (body request) BirdRouter.put_fields with
         | Normal vs =>
             answered BirdRouter.update_query
               (JArr (vs ++ [param request "formattedComName"])) 400
               (message_body "Error: undefined") db
         | Abrupt e => threw e db
         end.
Proof.
  unfold BirdRouter.put.
  destruct (is_nullish (body request)) eqn:Hb.
  - unfold BirdRouter.put_fields. by rewrite read_fields_nullish.
  - destruct (read_fields_readable _ BirdRouter.put_fields Hb) as [vs [-> _]].
    by rewrite (run_query_rejected _ _ _ _ _ _ _ _
                  (query_update_rejected composite_text _ db)).
Qed.

(** C3. The INSERT of POST / and the UPDATE of PUT /:formattedComName
    both name a column [Habitat]; the [Birds] table of the schema file
    has none.  Against that table every create and every update is
    rejected by the store and answered from the [.catch] branch with 400;
    the store is never changed and no other response is ever sent. *)
Theorem create_and_update_name_a_missing_column
    (composite_text : JSValue → string) (request : Request) (db : list Pg.Row) :
  let created := run (Pg.query composite_text Pg.Birds) (BirdRouter.post request) db in
  let updated := run (Pg.query composite_text Pg.Birds) (BirdRouter.put request) db in
  (∃ t cs ns, Pg.parse BirdRouter.insert_query = Some (Pg.Insert t cs ns)
              ∧ In "habitat" cs)
  ∧ (∃ t sets c n, Pg.parse BirdRouter.update_query = Some (Pg.Update t sets c n)
                   ∧ In "habitat" (List.map fst sets))
  ∧ Pg.has_column Pg.Birds "habitat" = false
  ∧ store created = db
  ∧ store updated = db
  ∧ (∀ r, response created = Some r → r = rejected_400)
  ∧ (∀ r, response updated = Some r → r = rejected_400)
  ∧ (is_nullish (body request) = false →
     response created = Some rejected_400
     ∧ response updated = Some rejected_400
     ∧ (∃ values, issued created = [(BirdRouter.insert_query, values)])
     ∧ (∃ values, issued updated = [(BirdRouter.update_query, values)])).
Proof.
  intros created updated. subst created updated.
  rewrite post_outcome, put_outcome.
  split. { rewrite parse_insert_query. do 3 eexists. split; [done |]. simpl. tauto. }
  split. { rewrite parse_update_query. do 4 eexists. split; [done |]. simpl. tauto. }
  split; [done |].
  destruct (is_nullish (body request)) eqn:Hb.
  - repeat split; try done.
  - destruct (read_fields_readable _ BirdRouter.post_fields Hb) as [vs [-> _]].
    destruct (read_fields_readable _ BirdRouter.put_fields Hb) as [ws [-> _]].
    cbn [answered response store issued].
    repeat split; try done; try (intros r [= <-]; done); eauto.
Qed.

Lemma create_and_update_name_a_missing_column_witness :
  response (run (Pg.query Sample.render Pg.Birds)
              (BirdRouter.post {| body := Sample.robin_body; params := [] |}) [])
  = Some rejected_400.
Proof.
  exact (proj1 (proj2 (proj2 (proj2 (proj2 (proj2 (proj2 (proj2
           (create_and_update_name_a_missing_column Sample.render
              {| body := Sample.robin_body; params := [] |} [])))))))
           eq_refl)).
Defined.

(** Delete against the store, off the empty array: the rows whose key
    is among the names are removed, their number is reported, and the
    requested names are echoed whether or not each of them was stored. *)
Lemma delete_by_names_nonempty
    (composite_text : JSValue → string) (request : Request)
    (names : list string) (db : list Pg.Row) :
  names ≠ [] →
  prop (body request) "names" = Normal (JArr (List.map JStr names)) →
  run (Pg.query composite_text Pg.Birds) (BirdRouter.delete request) db
  = let gone := List.filter (present names) db in
    let echo := JArr (List.map JStr names) in
    answered (BirdRouter.delete_in_query (placeholder_list (length names))) echo
      (if (0 <? length gone)%nat then 200 else 404)
      (if (0 <? length gone)%nat
       then JObj [("message", JStr (dec (length gone) ++ " bird(s) deleted successfully."));
                  ("birdNames", echo)]
       else JObj [("message", JStr "No birds found with the provided names.");
                  ("birdNames", echo)])
      (List.filter (fun r => negb (present names r)) db).
Proof.
  intros Hne Hnames.
  rewrite (delete_unvalidated _ _ Hnames).
  assert (Hq := StoreFacts.query_delete_in composite_text Pg.Birds
                  StoreFacts.Birds_name StoreFacts.Birds_key
                  (List.map JStr names) db).
  rewrite length_map in *.
  rewrite (run_query_fulfilled _ _ _ _ _ _ _ _
             (Hq ltac:(by destruct names))).
  rewrite (List.filter_ext _ _ (key_among_names composite_text names)).
  rewrite (List.filter_ext
             (fun r => negb (key_among _ "formatted_com_name" r))
             (fun r => negb (present names r)))
    by (intros r; by rewrite key_among_names).
  cbv zeta. unfold BirdRouter.delete_then. cbn [Pg.fulfilled rowCount].
  by destruct (0 <? length (List.filter (present names) db))%nat.
Qed.

(** ** How many rows a lookup returns *)

Lemma existsb_eqb_elem_of (s : string) (names : list string) :
  existsb (String.eqb s) names = true ↔ s ∈ names.
Proof.
  rewrite existsb_exists, list_elem_of_In. split.
  - intros [x [Hx He]]. apply String.eqb_eq in He. by subst.
  - intros H. exists s. split; [done | apply String.eqb_refl].
Qed.

Lemma found_keys (names : list string) (db : list Pg.Row) :
  omap key_of (List.filter (present names) db)
  = filter (λ s, s ∈ names) (stored_keys db).
Proof.
  unfold stored_keys. induction db as [|r db IH]; [done |].
  cbn [List.filter omap list_omap]. unfold present at 1.
  destruct (key_of r) as [s|] eqn:Hk.
  - rewrite filter_cons.
    destruct (existsb (String.eqb s) names) eqn:He.
    + apply existsb_eqb_elem_of in He.
      rewrite decide_True by done. cbn [omap list_omap]. rewrite Hk.
      by rewrite <- IH.
    + rewrite decide_False; [done |].
      intros Hin. apply existsb_eqb_elem_of in Hin. congruence.
  - done.
Qed.

Lemma found_length (names : list string) (db : list Pg.Row) :
  length (omap key_of (List.filter (present names) db))
  = length (List.filter (present names) db).
Proof.
  induction db as [|r db IH]; [done |].
  cbn [List.filter]. destruct (present names r) eqn:Hp; [|done].
  cbn [omap list_omap]. unfold present in Hp.
  destruct (key_of r); [|discriminate Hp]. simpl. by rewrite <- IH.
Qed.

Lemma length_remove_dups (l : list string) :
  (length (remove_dups l) ≤ length l)%nat.
Proof.
  induction l as [|x l IH]; [done |]. cbn [remove_dups].
  destruct (decide_rel elem_of x l); simpl; lia.
Qed.

(** With unique keys, a lookup returns one row per distinct supplied
    name that is stored: M rows for M such names, and M is at most the
    number N of names supplied. *)
Lemma lookup_row_count (names : list string) (db : list Pg.Row) :
  NoDup (stored_keys db) →
  length (List.filter (present names) db)
  = length (filter (λ n, n ∈ stored_keys db) (remove_dups names))
  ∧ (length (List.filter (present names) db) ≤ length names)%nat.
Proof.
  intros Hnd.
  assert (Hl : length (List.filter (present names) db)
               = length (filter (λ n, n ∈ stored_keys db) (remove_dups names))).
  { rewrite <- found_length, found_keys.
    apply Permutation_length, NoDup_Permutation.
    - by apply NoDup_filter.
    - apply NoDup_filter, NoDup_remove_dups.
    - intros s. rewrite !list_elem_of_filter, elem_of_remove_dups. tauto. }
  split; [done |]. rewrite Hl.
  etrans; [apply length_filter |]. apply length_remove_dups.
Qed.

(** ** Create, update and the schema *)

Lemma absent_key_not_found (key : string) (db : list Pg.Row) :
  key ∉ stored_keys db → List.filter (present [key]) db = [].
Proof.
  unfold stored_keys. induction db as [|r db IH]; [done |].
  cbn [omap list_omap List.filter]. unfold present at 1.
  destruct (key_of r) as [s|].
  - intros Hk. apply not_elem_of_cons in Hk as [Hne Hk].
    cbn [existsb]. rewrite orb_false_r.
    rewrite (proj2 (String.eqb_neq s key)) by congruence. by apply IH.
  - apply IH.
Qed.

(** C6, at every bird record: the create is answered 400 and the store
    stays as it was, so the lookup of the record's key that follows
    returns what was stored under that key before, and no row at all
    when the key was new, where the inserted record was expected. *)
Theorem created_bird_is_not_found
    (composite_text : JSValue → string) (bird : Model.IBird) (db : list Pg.Row) :
  let key := Model.formattedComName (Model.names bird) in
  let created := run (Pg.query composite_text Pg.Birds)
                   (BirdRouter.post {| body := bird_body bird; params := [] |}) db in
  let looked_up := run (Pg.query composite_text Pg.Birds)
                     (BirdRouter.get_by_names
                        {| body := JObj [("birds", JArr [JStr key]);
                                         ("birdNames", JArr [JStr key])];
                           params := [] |})
                     (store created) in
  response created = Some rejected_400
  ∧ store created = db
  ∧ response looked_up
    = Some {| status := 200;
              payload := JArr (List.map Pg.row_json (List.filter (present [key]) db)) |}
  ∧ (key ∉ stored_keys db →
     response looked_up = Some {| status := 200; payload := JArr [] |}).
Proof.
  cbv zeta. rewrite post_outcome. cbn [is_nullish bird_body body].
  change (BirdRouter.read_fields (bird_body bird) BirdRouter.post_fields)
    with (Normal
            [JStr (Model.formattedComName (Model.names bird));
             JStr (Model.comName (Model.names bird));
             JStr (Model.sciName (Model.names bird));
             JStr (Model.previewPhoto (Model.photos bird));
             JStr (Model.maleBreedingPhoto (Model.photos bird));
             JStr (Model.maleNonbreedingPhoto (Model.photos bird));
             JStr (Model.femalePhoto (Model.photos bird));
             JStr (Model.sound bird); JStr (Model.shortDesc bird);
             JStr (Model.longDesc bird); JStr (Model.howToFind bird);
             JStr (Model.habitat bird); JStr (Model.learnMoreLink bird)]).
  cbn [answered response store].
  rewrite (lookup_by_names_nonempty composite_text Pg.Birds _
             [JStr (Model.formattedComName (Model.names bird))]
             [Model.formattedComName (Model.names bird)] db) by done.
  cbn [answered response].
  split; [done |]. split; [done |]. split; [done |].
  intros Hk. by rewrite absent_key_not_found.
Qed.

Lemma created_bird_is_not_found_witness :
  response (run (Pg.query Sample.render Pg.Birds)
              (BirdRouter.get_by_names (Sample.names_request ["AmericanRobin"]))
              (store (run (Pg.query Sample.render Pg.Birds)
                        (BirdRouter.post
                           {| body := bird_body Sample.robin_bird; params := [] |})
                        [])))
  = Some {| status := 200; payload := JArr [] |}.
Proof.
  refine (proj2 (proj2 (proj2 (created_bird_is_not_found Sample.render
                                 Sample.robin_bird []))) _).
  apply not_elem_of_nil.
Defined.

(** C7, at every bird record and every key, stored or not: the update
    is answered 400 from the [.catch] branch, never 404; the store is
    unchanged. *)
Theorem update_of_missing_key_is_rejected
    (composite_text : JSValue → string) (bird : Model.IBird) (key : string)
    (db : list Pg.Row) :
  let o := run (Pg.query composite_text Pg.Birds)
             (BirdRouter.put {| body := bird_body bird;
                                params := [("formattedComName", key)] |})
             db in
  response o = Some rejected_400 ∧ store o = db.
Proof.
  cbv zeta. rewrite put_outcome. cbn [is_nullish bird_body body].
  change (BirdRouter.read_fields (bird_body bird) BirdRouter.put_fields)
    with (Normal
            [JStr (Model.comName (Model.names bird));
             JStr (Model.sciName (Model.names bird));
             JStr (Model.previewPhoto (Model.photos bird));
             JStr (Model.maleBreedingPhoto (Model.photos bird));
             JStr (Model.maleNonbreedingPhoto (Model.photos bird));
             JStr (Model.femalePhoto (Model.photos bird));
             JStr (Model.sound bird); JStr (Model.shortDesc bird);
             JStr (Model.longDesc bird); JStr (Model.howToFind bird);
             JStr (Model.habitat bird); JStr (Model.learnMoreLink bird)]).
  done.
Qed.

(** ** The same routes over a table that declares the column

    What create, lookup and update do once [Habitat] is a column of the
    relation: the statements resolve, and the outcomes are the ones the
    API documentation describes. *)

Lemma analyse_update_with_habitat :
  Pg.analyse Birds_with_habitat
    (Pg.Update "birds"
       [("com_name", 1); ("sci_name", 2); ("preview_photo", 3);
        ("male_breeding_photo", 4); ("male_nonbreeding_photo", 5);
        ("female_photo", 6); ("sound", 7); ("short_desc", 8);
        ("long_desc", 9); ("how_to_find", 10); ("habitat", 11);
        ("learn_more_link", 12)]
       "formatted_com_name" 13) = None.
Proof. vm_compute. reflexivity. Qed.

(** Over such a table an update of a key that is not stored is answered
    404 and leaves every row as it was. *)
Lemma update_of_missing_key_with_habitat
    (composite_text : JSValue → string) (request : Request) (key : string)
    (db : list Pg.Row) :
  is_nullish (body request) = false →
  param request "formattedComName" = JStr key →
  (∀ r, In r db → key_of r ≠ Some key) →
  ∃ values,
    run (Pg.query composite_text Birds_with_habitat) (BirdRouter.put request) db
    = answered BirdRouter.update_query values 404
        (message_body "No bird found with the provided name.") db.
Proof.
  intros Hb Hkey Hfresh. unfold BirdRouter.put.
  destruct (read_fields_readable _ BirdRouter.put_fields Hb) as [vs [-> Hl]].
  rewrite Hkey. exists (JArr (vs ++ [JStr key])).
  assert (Hmiss : ∀ bound r, In r db →
            Pg.matches (bound ++ [Some key]) "formatted_com_name"
              [length bound + 1] r = false).
  { intros bound r Hr. unfold Pg.matches. specialize (Hfresh r Hr).
    unfold key_of in Hfresh.
    destruct (Pg.row_get r "formatted_com_name") as [s|]; [|done].
    cbn [existsb]. unfold Pg.arg.
    rewrite Nat.add_sub, app_nth2, Nat.sub_diag by lia.
    simpl. rewrite orb_false_r. apply String.eqb_neq. congruence. }
  assert (Hq : Pg.query composite_text Birds_with_habitat BirdRouter.update_query
                 (JArr (vs ++ [JStr key])) db
               = (Pg.fulfilled [] 0, db)).
  { do 12 (destruct vs as [|? vs]; [discriminate Hl |]).
    destruct vs; [|discriminate Hl].
    unfold Pg.query. rewrite parse_update_query, analyse_update_with_habitat.
    cbn [Pg.values_list List.map app length Pg.stmt_params fst snd].
    change (Nat.eqb _ _) with true. cbv iota.
    cbn [Pg.execute].
    match goal with
    | |- context [Pg.matches ?b _ [13]] =>
        assert (Hm : ∀ r, In r db → Pg.matches b "formatted_com_name" [13] r = false)
    end.
    { intros r Hr.
      apply (Hmiss [_; _; _; _; _; _; _; _; _; _; _; _] r Hr). }
    rewrite (List.filter_ext_in _ (fun _ => false) db Hm), List.filter_false.
    cbn [List.map List.find length].
    change (existsb _ (Pg.key_columns Birds_with_habitat)) with false. cbv iota.
    f_equal. rewrite <- (List.map_id db) at 2.
    apply List.map_ext_in. intros r Hr. by rewrite Hm. }
  by rewrite (run_query_fulfilled _ _ _ _ _ _ _ _ Hq).
Qed.

Lemma analyse_insert_with_habitat :
  Pg.analyse Birds_with_habitat
    (Pg.Insert "birds"
       ["formatted_com_name"; "com_name"; "sci_name"; "preview_photo";
        "male_breeding_photo"; "male_nonbreeding_photo"; "female_photo";
        "sound"; "short_desc"; "long_desc"; "how_to_find"; "habitat";
        "learn_more_link"]
       (seq 1 13)) = None.
Proof. vm_compute. reflexivity. Qed.

Lemma fresh_key_no_conflict (b : Model.IBird) (db : list Pg.Row) :
  Model.formattedComName (Model.names b) ∉ stored_keys db →
  existsb (Pg.same_key Birds_with_habitat (bird_row b)) db = false.
Proof.
  unfold stored_keys. induction db as [|r db IH]; [done |].
  cbn [omap list_omap existsb]. intros Hk.
  assert (Hr : Pg.same_key Birds_with_habitat (bird_row b) r = false).
  { unfold Pg.same_key.
    change (Pg.key_columns Birds_with_habitat) with ["formatted_com_name"].
    cbn [forallb]. rewrite andb_true_r.
    change (Pg.row_get (bird_row b) "formatted_com_name")
      with (Some (Model.formattedComName (Model.names b))).
    change (Pg.row_get r "formatted_com_name") with (key_of r).
    destruct (key_of r) as [s|]; [|done].
    apply not_elem_of_cons in Hk as [Hne _]. by apply String.eqb_neq. }
  rewrite Hr. apply IH.
  destruct (key_of r); [by apply not_elem_of_cons in Hk as [_ Hk] | done].
Qed.

(** Over such a table the round trip holds for every bird record with a
    new key: the create answers 200 with the inserted row, and the
    lookup of its key returns that row and no other, every column
    holding the value the body carried. *)
Lemma create_then_lookup_with_habitat
    (composite_text : JSValue → string) (bird : Model.IBird) (db : list Pg.Row) :
  let key := Model.formattedComName (Model.names bird) in
  let created := run (Pg.query composite_text Birds_with_habitat)
                   (BirdRouter.post {| body := bird_body bird; params := [] |}) db in
  let looked_up := run (Pg.query composite_text Birds_with_habitat)
                     (BirdRouter.get_by_names
                        {| body := JObj [("birds", JArr [JStr key]);
                                         ("birdNames", JArr [JStr key])];
                           params := [] |})
                     (store created) in
  key ∉ stored_keys db →
  response created
  = Some {| status := 200; payload := Pg.row_json (bird_row bird) |}
  ∧ store created = (db ++ [bird_row bird])%list
  ∧ response looked_up
    = Some {| status := 200; payload := JArr [Pg.row_json (bird_row bird)] |}.
Proof.
  intros key created looked_up Hk.
  assert (Hq : ∀ values,
            values = JArr
              [JStr (Model.formattedComName (Model.names bird));
               JStr (Model.comName (Model.names bird));
               JStr (Model.sciName (Model.names bird));
               JStr (Model.previewPhoto (Model.photos bird));
               JStr (Model.maleBreedingPhoto (Model.photos bird));
               JStr (Model.maleNonbreedingPhoto (Model.photos bird));
               JStr (Model.femalePhoto (Model.photos bird));
               JStr (Model.sound bird); JStr (Model.shortDesc bird);
               JStr (Model.longDesc bird); JStr (Model.howToFind bird);
               JStr (Model.habitat bird); JStr (Model.learnMoreLink bird)] →
            Pg.query composite_text Birds_with_habitat BirdRouter.insert_query values db
            = (Pg.fulfilled [bird_row bird] 1, (db ++ [bird_row bird])%list)).
  { intros values ->. unfold Pg.query.
    rewrite parse_insert_query, analyse_insert_with_habitat.
    cbn [Pg.values_list List.map length Pg.stmt_params].
    change (Nat.eqb _ _) with true. cbv iota. cbn [Pg.execute].
    change (Pg.new_row Birds_with_habitat _ _ _) with (bird_row bird).
    change (Pg.violates_not_null Birds_with_habitat (bird_row bird)) with false.
    cbv iota. by rewrite fresh_key_no_conflict. }
  assert (Hc : created
               = answered BirdRouter.insert_query
                   (JArr
                      [JStr (Model.formattedComName (Model.names bird));
                       JStr (Model.comName (Model.names bird));
                       JStr (Model.sciName (Model.names bird));
                       JStr (Model.previewPhoto (Model.photos bird));
                       JStr (Model.maleBreedingPhoto (Model.photos bird));
                       JStr (Model.maleNonbreedingPhoto (Model.photos bird));
                       JStr (Model.femalePhoto (Model.photos bird));
                       JStr (Model.sound bird); JStr (Model.shortDesc bird);
                       JStr (Model.longDesc bird); JStr (Model.howToFind bird);
                       JStr (Model.habitat bird); JStr (Model.learnMoreLink bird)])
                   200 (Pg.row_json (bird_row bird)) (db ++ [bird_row bird])%list).
  { subst created. unfold BirdRouter.post.
    change (BirdRouter.read_fields _ BirdRouter.post_fields) with
      (Normal
         [JStr (Model.formattedComName (Model.names bird));
          JStr (Model.comName (Model.names bird));
          JStr (Model.sciName (Model.names bird));
          JStr (Model.previewPhoto (Model.photos bird));
          JStr (Model.maleBreedingPhoto (Model.photos bird));
          JStr (Model.maleNonbreedingPhoto (Model.photos bird));
          JStr (Model.femalePhoto (Model.photos bird));
          JStr (Model.sound bird); JStr (Model.shortDesc bird);
          JStr (Model.longDesc bird); JStr (Model.howToFind bird);
          JStr (Model.habitat bird); JStr (Model.learnMoreLink bird)]).
    cbv beta iota. by rewrite (run_query_fulfilled _ _ _ _ _ _ _ _ (Hq _ eq_refl)). }
  subst looked_up. rewrite Hc. cbn [answered response store].
  split; [done |]. split; [done |].
  rewrite (lookup_by_names_nonempty composite_text Birds_with_habitat _
             [JStr key] [key] (db ++ [bird_row bird])) by done.
  cbn [answered response]. rewrite List.filter_app, absent_key_not_found by done.
  cbn [List.filter app]. unfold present, key_of.
  change (Pg.row_get (bird_row bird) "formatted_com_name") with (Some key).
  cbn [existsb]. by rewrite String.eqb_refl.
Qed.

(** * Further properties of the router *)

(** ** The shape of a handler *)

(** Before its query a handler can only throw or, on GET /, be turned
    down by the middleware; its [.then] callback always sends. *)
Lemma detail_handler_shape (h : Request → Action) (request : Request) :
  In h detail_handlers →
  (∃ e, h request = Throw e)
  ∨ h request = validation_rejection
  ∨ ∃ text values k,
      h request = Query text values k BirdRouter.on_error_400
      ∧ ∀ result, ∃ st p, k result = Send st p.
Proof.
  intros [<-|[<-|[<-|[<-|[]]]]].
  - unfold BirdRouter.get_by_names, BirdRouter.mwValidBirdsBody.
    destruct (prop (body request) "birds") as [birds|e]; [|left; eauto].
    destruct (isArray birds); [|right; left; done].
    unfold BirdRouter.get_by_names_handler.
    destruct (prop (body request) "birdNames") as [names|e]; [|left; eauto].
    destruct (BirdRouter.placeholders names) as [ph|e]; [|left; eauto].
    right; right. do 3 eexists. split; [done |].
    intros result. unfold BirdRouter.get_by_names_then. eauto.
  - unfold BirdRouter.put.
    destruct (BirdRouter.read_fields _ _) as [vs|e]; [|left; eauto].
    right; right. do 3 eexists. split; [done |].
    intros result. unfold BirdRouter.put_then.
    destruct (0 <? rowCount result)%nat; eauto.
  - unfold BirdRouter.post.
    destruct (BirdRouter.read_fields _ _) as [vs|e]; [|left; eauto].
    right; right. do 3 eexists. split; [done |].
    intros result. unfold BirdRouter.post_then. eauto.
  - unfold BirdRouter.delete.
    destruct (prop (body request) "names") as [names|e]; [|left; eauto].
    destruct (BirdRouter.placeholders names) as [ph|e]; [|left; eauto].
    right; right. do 3 eexists. split; [done |].
    intros result. unfold BirdRouter.delete_then.
    destruct (0 <? rowCount result)%nat; eauto.
Qed.

(** X2. Every handler deals with a request in one piece, whatever the
    pool answers: it issues at most one query; when it throws it has
    queried, logged and stored nothing and sends nothing; otherwise it
    sends exactly one response. *)
Theorem every_handler_in_one_piece
    {S : Type} (pool : Pool S) (db : S) (request : Request) :
  Forall (fun h => one_piece db (run pool (h request) db)) handlers.
Proof.
  assert (Hd : ∀ h, In h detail_handlers → one_piece db (run pool (h request) db)).
  { intros h Hh.
    destruct (detail_handler_shape h request Hh)
      as [[e ->]|[->|(text & values & k & -> & Hk)]].
    - split; simpl; [lia | done].
    - split; simpl; [lia | by eexists].
    - cbn [run]. destruct (pool text values db) as [[result|error] db'].
      + destruct (Hk result) as (st & p & ->). split; simpl; [lia | by eexists].
      + split; simpl; [lia | by eexists]. }
  unfold handlers.
  constructor; [| repeat (constructor; [apply Hd; simpl; tauto |]); constructor].
  unfold BirdRouter.get_all. cbn [run].
  destruct (pool BirdRouter.get_all_query JUndefined db) as [[result|error] db'].
  - unfold BirdRouter.get_all_then.
    destruct (1 <=? rowCount result)%nat; split; simpl; try lia; by eexists.
  - split; simpl; [lia | by eexists].
Qed.

(** X3. On GET /, PUT, POST and DELETE a rejected query is answered
    400 with the driver's detail appended to ['Error: '] (the text
    [undefined] when the error has none); nothing is logged and the
    store is what the pool left. *)
Theorem rejected_query_is_answered_with_detail
    {S : Type} (pool : Pool S) (db db' : S) (request : Request)
    (h : Request → Action) (text : string) (values : JSValue) (error : DbError)
    (Hh : In h detail_handlers)
    (Hissued : issued (run pool (h request) db) = [(text, values)])
    (Hrejected : pool text values db = (Rejected error, db')) :
  let o := run pool (h request) db in
  response o
  = Some {| status := 400;
            payload := message_body ("Error: " ++ show_detail (detail error)) |}
  ∧ console o = []
  ∧ store o = db'.
Proof.
  cbv zeta.
  destruct (detail_handler_shape h request Hh)
    as [[e He]|[He|(t & v & k & He & Hk)]]; rewrite He in *.
  - discriminate Hissued.
  - discriminate Hissued.
  - cbn [run] in *. destruct (pool t v db) as [[result|err] db''] eqn:Hp.
    + cbn [queried issued] in Hissued. injection Hissued as -> ->.
      rewrite Hp in Hrejected. discriminate Hrejected.
    + cbn [queried issued] in Hissued. injection Hissued as -> ->.
      rewrite Hp in Hrejected. injection Hrejected as -> ->. done.
Qed.

Lemma rejected_query_is_answered_with_detail_witness :
  response (run (Pg.query Sample.render Pg.Birds)
              (BirdRouter.delete {| body := names_body []; params := [] |})
              [Sample.robin])
  = Some {| status := 400; payload := message_body "Error: undefined" |}.
Proof.
  refine (proj1 (rejected_query_is_answered_with_detail
                   (Pg.query Sample.render Pg.Birds) [Sample.robin] [Sample.robin]
                   {| body := names_body []; params := [] |}
                   BirdRouter.delete
                   "DELETE FROM Birds WHERE Formatted_Com_Name IN ();" (JArr [])
                   Pg.syntax_error _ _ _)).
  - simpl. tauto.
  - vm_compute. reflexivity.
  - vm_compute. reflexivity.
Defined.

(** ** The lookup route and its middleware *)

(** X1. GET / turns down every request whose body field [birds] is not
    an array, whatever [birdNames] holds: 400 with the fixed message,
    one console line, no query, the store untouched. *)
Theorem lookup_turns_down_body_without_birds_array
    {S : Type} (pool : Pool S) (db : S) (request : Request) (birds : JSValue)
    (Hread : prop (body request) "birds" = Normal birds)
    (Hnot : isArray birds = false) :
  run pool (BirdRouter.get_by_names request) db
  = {| response :=
         Some {| status := 400;
                 payload :=
                   message_body "Invalid or missing Bird - please refer to documentation" |};
       thrown := None;
       console := [LogText "Invalid or missing Birds"];
       issued := [];
       store := db |}.
Proof.
  unfold BirdRouter.get_by_names, BirdRouter.mwValidBirdsBody.
  by rewrite Hread, Hnot.
Qed.

Lemma lookup_turns_down_body_without_birds_array_witness :
  response (run (Pg.query Sample.render Pg.Birds)
              (BirdRouter.get_by_names
                 {| body := JObj [("birdNames", JArr [JStr "AmericanRobin"])];
                    params := [] |})
              [Sample.robin])
  = Some {| status := 400;
            payload :=
              message_body "Invalid or missing Bird - please refer to documentation" |}.
Proof.
  exact (f_equal response
           (lookup_turns_down_body_without_birds_array
              (Pg.query Sample.render Pg.Birds) [Sample.robin]
              {| body := JObj [("birdNames", JArr [JStr "AmericanRobin"])];
                 params := [] |}
              JUndefined eq_refl eq_refl)).
Defined.

(** X4. GET / reaches the store exactly when the body holds an array
    under [birds] and an array under [birdNames]: either field alone is
    not enough. *)
Theorem lookup_queries_iff_both_fields_are_arrays
    {S : Type} (pool : Pool S) (db : S) (request : Request) :
  issued (run pool (BirdRouter.get_by_names request) db) ≠ []
  ↔ (∃ birds, prop (body request) "birds" = Normal (JArr birds))
    ∧ (∃ names, prop (body request) "birdNames" = Normal (JArr names)).
Proof.
  unfold BirdRouter.get_by_names, BirdRouter.mwValidBirdsBody,
    BirdRouter.get_by_names_handler.
  destruct (prop (body request) "birds") as [birds|e] eqn:Hb.
  2:{ simpl. split; [done | intros [[? [=]] _]]. }
  destruct birds; simpl;
    try (split; [done | intros [[? [=]] _]]).
  destruct (prop (body request) "birdNames") as [names|e] eqn:Hn.
  2:{ simpl. split; [done | intros [_ [? [=]]]]. }
  destruct names; simpl;
    try (split; [done | intros [_ [? [=]]]]).
  destruct (pool _ _ db) as [[result|error] db']; simpl;
    (split; [intros _; eauto | done]).
Qed.

(** ** Create and update: what is bound to what *)

Lemma read_fields_agree (b1 b2 : JSValue) (names : list string) :
  (∀ f, In f names → prop b1 f = prop b2 f) →
  BirdRouter.read_fields b1 names = BirdRouter.read_fields b2 names.
Proof.
  induction names as [|n names IH]; intros H; [done |].
  cbn [BirdRouter.read_fields].
  rewrite (H n) by (simpl; tauto).
  rewrite IH; [done |]. intros f Hf. apply H. simpl. tauto.
Qed.

Lemma read_fields_lookup (b : JSValue) (names : list string) (vs : list JSValue) :
  BirdRouter.read_fields b names = Normal vs →
  length vs = length names
  ∧ ∀ i f, names !! i = Some f → ∃ v, prop b f = Normal v ∧ vs !! i = Some v.
Proof.
  revert vs. induction names as [|n names IH]; intros vs H.
  - injection H as <-. split; [done |]. intros i f Hi. discriminate Hi.
  - cbn [BirdRouter.read_fields] in H.
    destruct (prop b n) as [v|e] eqn:Hv; [|discriminate H].
    destruct (BirdRouter.read_fields b names) as [ws|e]; [|discriminate H].
    injection H as <-. destruct (IH ws eq_refl) as [Hl Hi].
    split; [simpl; by rewrite Hl |].
    intros [|i] f Hf.
    + injection Hf as <-. eauto.
    + apply (Hi i f Hf).
Qed.

(** X5. PUT depends on nothing but the path key and the twelve body
    fields it lists: two requests that agree on those run the same
    update.  In particular a [formattedComName] in the body is ignored,
    so an update cannot rename a bird. *)
Theorem update_ignores_other_body_fields (r1 r2 : Request)
    (Hkey : param r1 "formattedComName" = param r2 "formattedComName")
    (Hfields : ∀ f, In f BirdRouter.put_fields → prop (body r1) f = prop (body r2) f) :
  BirdRouter.put r1 = BirdRouter.put r2.
Proof.
  unfold BirdRouter.put.
  by rewrite Hkey, (read_fields_agree _ _ _ Hfields).
Qed.

Lemma update_ignores_other_body_fields_witness :
  BirdRouter.put
    {| body := JObj [("formattedComName", JStr "Renamed"); ("comName", JStr "Robin")];
       params := [("formattedComName", "AmericanRobin")] |}
  = BirdRouter.put
      {| body := JObj [("comName", JStr "Robin")];
         params := [("formattedComName", "AmericanRobin")] |}.
Proof.
  apply update_ignores_other_body_fields; [reflexivity |].
  intros f Hf. simpl in Hf.
  repeat (destruct Hf as [<-|Hf]; [reflexivity |]). destruct Hf.
Defined.

(** X6. POST binds by name: for every readable body the INSERT lists,
    in order, the columns named after the thirteen body fields it
    reads, column i takes parameter i+1, and parameter i+1 is the value
    of the i-th field (undefined when the body lacks it). *)
Theorem create_binds_each_column_to_its_field
    (request : Request) (Hbody : is_nullish (body request) = false) :
  ∃ (values : list JSValue) (columns : list string),
    BirdRouter.post request
    = Query BirdRouter.insert_query (JArr values) BirdRouter.post_then
        BirdRouter.on_error_400
    ∧ Pg.parse BirdRouter.insert_query = Some (Pg.Insert "birds" columns (seq 1 13))
    ∧ ∀ i field,
        BirdRouter.post_fields !! i = Some field →
        columns !! i = Some (camel_to_snake field)
        ∧ seq 1 13 !! i = Some (Datatypes.S i)
        ∧ ∃ v, prop (body request) field = Normal v ∧ values !! i = Some v.
Proof.
  unfold BirdRouter.post.
  destruct (read_fields_readable _ BirdRouter.post_fields Hbody) as [vs [Hvs _]].
  rewrite Hvs. destruct (read_fields_lookup _ _ _ Hvs) as [_ Hi].
  exists vs. eexists. split; [done |]. split; [apply parse_insert_query |].
  intros i field Hf. split; [|split; [|by apply Hi]].
  - do 13 (destruct i as [|i]; [injection Hf as <-; reflexivity |]).
    discriminate Hf.
  - do 13 (destruct i as [|i]; [reflexivity |]). discriminate Hf.
Qed.

Lemma create_binds_each_column_to_its_field_witness :
  ∃ (values : list JSValue) (columns : list string),
    BirdRouter.post {| body := Sample.robin_body; params := [] |}
    = Query BirdRouter.insert_query (JArr values) BirdRouter.post_then
        BirdRouter.on_error_400
    ∧ Pg.parse BirdRouter.insert_query = Some (Pg.Insert "birds" columns (seq 1 13))
    ∧ ∀ i field,
        BirdRouter.post_fields !! i = Some field →
        columns !! i = Some (camel_to_snake field)
        ∧ seq 1 13 !! i = Some (Datatypes.S i)
        ∧ ∃ v, prop Sample.robin_body field = Normal v ∧ values !! i = Some v.
Proof.
  exact (create_binds_each_column_to_its_field
           {| body := Sample.robin_body; params := [] |} eq_refl).
Defined.

(** X7. PUT binds by name and keys by path: for every readable body the
    UPDATE assigns, in order, the columns named after the twelve body
    fields it reads, assignment i taking parameter i+1 and parameter i+1
    being the value of the i-th field; the row is selected by the key
    column against parameter 13, which is the path parameter. *)
Theorem update_binds_each_column_to_its_field
    (request : Request) (Hbody : is_nullish (body request) = false) :
  ∃ (values : list JSValue) (sets : list (string * nat)),
    BirdRouter.put request
    = Query BirdRouter.update_query
        (JArr (values ++ [param request "formattedComName"])%list)
        BirdRouter.put_then BirdRouter.on_error_400
    ∧ Pg.parse BirdRouter.update_query
      = Some (Pg.Update "birds" sets (camel_to_snake "formattedComName") 13)
    ∧ (values ++ [param request "formattedComName"])%list !! 12
      = Some (param request "formattedComName")
    ∧ ∀ i field,
        BirdRouter.put_fields !! i = Some field →
        sets !! i = Some (camel_to_snake field, Datatypes.S i)
        ∧ ∃ v, prop (body request) field = Normal v ∧ values !! i = Some v.
Proof.
  unfold BirdRouter.put.
  destruct (read_fields_readable _ BirdRouter.put_fields Hbody) as [vs [Hvs Hl]].
  rewrite Hvs. destruct (read_fields_lookup _ _ _ Hvs) as [_ Hi].
  exists vs. eexists. split; [done |]. split; [apply parse_update_query |].
  split.
  - rewrite lookup_app_r by (rewrite Hl; done). by rewrite Hl.
  - intros i field Hf. split; [|by apply Hi].
    do 12 (destruct i as [|i]; [injection Hf as <-; reflexivity |]).
    discriminate Hf.
Qed.

Lemma update_binds_each_column_to_its_field_witness :
  ∃ (values : list JSValue) (sets : list (string * nat)),
    BirdRouter.put {| body := Sample.robin_body;
                      params := [("formattedComName", "AmericanRobin")] |}
    = Query BirdRouter.update_query
        (JArr (values ++ [JStr "AmericanRobin"]))
        BirdRouter.put_then BirdRouter.on_error_400
    ∧ Pg.parse BirdRouter.update_query
      = Some (Pg.Update "birds" sets (camel_to_snake "formattedComName") 13)
    ∧ (values ++ [JStr "AmericanRobin"])%list !! 12 = Some (JStr "AmericanRobin")
    ∧ ∀ i field,
        BirdRouter.put_fields !! i = Some field →
        sets !! i = Some (camel_to_snake field, Datatypes.S i)
        ∧ ∃ v, prop Sample.robin_body field = Normal v ∧ values !! i = Some v.
Proof.
  exact (update_binds_each_column_to_its_field
           {| body := Sample.robin_body;
              params := [("formattedComName", "AmericanRobin")] |} eq_refl).
Defined.

(** What PUT and POST answer to a fulfilled query, for every pool:
    PUT sends 200 with the first returned row when the count is
    positive and 404 with a fixed message otherwise; POST never looks at
    the count and always sends 200 with the first returned row, which is
    [undefined] when no row came back. *)
Theorem update_and_create_answer_with_first_row
    {S : Type} (pool : Pool S) (db : S) (request : Request) :
  (∀ text values result db',
      issued (run pool (BirdRouter.put request) db) = [(text, values)] →
      pool text values db = (Fulfilled result, db') →
      store (run pool (BirdRouter.put request) db) = db'
      ∧ response (run pool (BirdRouter.put request) db)
        = Some (if (0 <? rowCount result)%nat
                then {| status := 200; payload := BirdRouter.first_row result |}
                else {| status := 404;
                        payload :=
                          message_body "No bird found with the provided name." |}))
  ∧ (∀ text values result db',
        issued (run pool (BirdRouter.post request) db) = [(text, values)] →
        pool text values db = (Fulfilled result, db') →
        store (run pool (BirdRouter.post request) db) = db'
        ∧ response (run pool (BirdRouter.post request) db)
          = Some {| status := 200; payload := BirdRouter.first_row result |})
  ∧ BirdRouter.first_row {| rowCount := 1; rows := [] |} = JUndefined.
Proof.
  split; [|split; [|done]].
  - intros text values result db'. unfold BirdRouter.put.
    destruct (BirdRouter.read_fields _ _) as [vs|e]; [|intros [=]].
    cbn [run]. destruct (pool _ _ db) as [[r|e] db''] eqn:Hp;
      cbn [queried issued]; intros [= <- <-] Hf; rewrite Hp in Hf;
      [injection Hf as -> -> | discriminate Hf].
    unfold BirdRouter.put_then. by destruct (0 <? rowCount result)%nat.
  - intros text values result db'. unfold BirdRouter.post.
    destruct (BirdRouter.read_fields _ _) as [vs|e]; [|intros [=]].
    cbn [run]. destruct (pool _ _ db) as [[r|e] db''] eqn:Hp;
      cbn [queried issued]; intros [= <- <-] Hf; rewrite Hp in Hf;
      [injection Hf as -> -> | discriminate Hf].
    done.
Qed.

Lemma update_and_create_answer_with_first_row_witness :
  response (run (Pg.query Sample.render Birds_with_habitat)
              (BirdRouter.post {| body := Sample.robin_body; params := [] |}) [])
  = Some {| status := 200; payload := Pg.row_json (bird_row Sample.robin_bird) |}.
Proof.
  refine (proj2 (proj1 (proj2 (update_and_create_answer_with_first_row
                                 (Pg.query Sample.render Birds_with_habitat) []
                                 {| body := Sample.robin_body; params := [] |}))
                   BirdRouter.insert_query _
                   {| rowCount := 1;
                      rows := [Pg.row_json (bird_row Sample.robin_bird)] |}
                   [bird_row Sample.robin_bird] _ _)).
  - vm_compute. reflexivity.
  - vm_compute. reflexivity.
Defined.

(** ** Registration and mounting *)

(** X8. No request is served by two routes, so the order in which the
    router registers them is immaterial; and a request reaches a handler
    only under the mount segment, with at most one further segment and
    one of the registered methods (or HEAD). *)
Theorem at_most_one_route_serves_a_request :
  (∀ m segments,
      (length (List.filter (Routing.route_matches m segments) Routing.birdRouter) ≤ 1)%nat)
  ∧ (∀ req a,
        Routing.openRoutes req = Some a →
        ∃ mount rest,
          Routing.http_path req = mount :: rest
          ∧ Pg.fold_case mount = "birds"
          ∧ (length rest ≤ 1)%nat
          ∧ Routing.http_method req ≠ Routing.OtherMethod).
Proof.
  split.
  - intros m [|x [|y l]]; destruct m; cbn;
      try destruct (String.eqb (Pg.fold_case x) _); cbn; lia.
  - intros [m path b] a. unfold Routing.openRoutes. cbn.
    destruct path as [|mount rest]; [discriminate |].
    destruct (String.eqb (Pg.fold_case mount) "birds") eqn:Hm; [|discriminate].
    apply String.eqb_eq in Hm. intros Ha.
    exists mount, rest. split; [done |]. split; [done |].
    destruct rest as [|x [|y l]]; destruct m; cbn in Ha;
      try destruct (String.eqb (Pg.fold_case x) _); cbn in Ha;
      try discriminate Ha; split; cbn; first [lia | done].
Qed.



(** X10. List-all is served without looking at the request: a GET or
    HEAD on [/birds/all], in any letter case and with any body, even an
    absent one, issues the one unparameterised SELECT and never throws. *)
Theorem list_all_ignores_the_request
    {S : Type} (pool : Pool S) (db : S) (m : Routing.Method)
    (mount segment : string) (b : JSValue)
    (Hmethod : m = Routing.GET ∨ m = Routing.HEAD)
    (Hmount : Pg.fold_case mount = "birds")
    (Hsegment : Pg.fold_case segment = "all") :
  ∃ a,
    Routing.openRoutes
      {| Routing.http_method := m;
         Routing.http_path := [mount; segment];
         Routing.http_body := b |} = Some a
    ∧ issued (run pool a db) = [(BirdRouter.get_all_query, JUndefined)]
    ∧ thrown (run pool a db) = None.
Proof.
  unfold Routing.openRoutes. cbn [Routing.http_path Routing.http_method Routing.http_body].
  rewrite Hmount. cbn [String.eqb Ascii.eqb Bool.eqb].
  exists (BirdRouter.get_all {| body := b; params := [] |}).
  split.
  - unfold Routing.handle, Routing.birdRouter, Routing.route_matches.
    cbn [List.find Routing.route_method Routing.route_path Routing.match_path].
    rewrite Hsegment. change (Pg.fold_case "all") with "all".
    change ("all" =? "all") with true.
    destruct Hmethod as [-> | ->];
      cbn [Routing.handles Routing.Method_eqb orb andb];
      cbn [Routing.route_path Routing.match_path Routing.route_handler];
      rewrite Hsegment; reflexivity.
  - unfold BirdRouter.get_all. cbn [run].
    destruct (pool _ _ db) as [[r|e] db']; [|done].
    unfold BirdRouter.get_all_then. by destruct (1 <=? rowCount r)%nat.
Qed.

Lemma list_all_ignores_the_request_witness :
  ∃ a,
    Routing.openRoutes
      {| Routing.http_method := Routing.HEAD;
         Routing.http_path := ["birds"; "ALL"];
         Routing.http_body := JUndefined |} = Some a
    ∧ issued (run (Pg.query Sample.render Pg.Birds) a [Sample.robin])
      = [(BirdRouter.get_all_query, JUndefined)]
    ∧ thrown (run (Pg.query Sample.render Pg.Birds) a [Sample.robin]) = None.
Proof.
  exact (list_all_ignores_the_request (Pg.query Sample.render Pg.Birds)
           [Sample.robin] Routing.HEAD "birds" "ALL" JUndefined
           (or_intror eq_refl) eq_refl eq_refl).
Defined.

(** ** Lookup and delete against the store *)

Lemma present_iff (names : list string) (r : Pg.Row) :
  present names r = true ↔ ∃ k, key_of r = Some k ∧ k ∈ names.
Proof.
  unfold present. destruct (key_of r) as [s|].
  - rewrite existsb_eqb_elem_of. split; [eauto |]. by intros [k [[= ->] Hk]].
  - split; [done | by intros [k [[=] _]]].
Qed.

Lemma present_same_names (names1 names2 : list string) (r : Pg.Row) :
  (∀ k, k ∈ names1 ↔ k ∈ names2) → present names1 r = present names2 r.
Proof.
  intros H. apply eq_true_iff_eq. rewrite !present_iff.
  split; intros [k [Hk Hin]]; exists k; (split; [done | by apply H]).
Qed.

Lemma nothing_left_to_find (names : list string) (db : list Pg.Row) :
  List.filter (present names) (List.filter (fun r => negb (present names r)) db) = [].
Proof.
  induction db as [|r db IH]; [done |]. cbn [List.filter].
  destruct (present names r) eqn:Hp; cbn [negb]; [done |].
  cbn [List.filter]. by rewrite Hp.
Qed.

Lemma removed_plus_kept (f : Pg.Row → bool) (db : list Pg.Row) :
  length (List.filter f db) + length (List.filter (fun r => negb (f r)) db)
  = length db.
Proof.
  induction db as [|r db IH]; [done |]. cbn [List.filter].
  destruct (f r); cbn [negb length]; lia.
Qed.

Lemma filter_is_sublist (f : Pg.Row → bool) (db : list Pg.Row) :
  List.filter f db `sublist_of` db.
Proof.
  induction db as [|r db IH]; [constructor |]. cbn [List.filter].
  destruct (f r); by constructor.
Qed.

(** X11. GET / with a non-empty array of names, over the table of the
    schema file: 200 with exactly the stored rows whose key is one of
    the names, in stored order; names that are not stored contribute
    nothing; the store is left as it was. *)
Theorem lookup_returns_the_stored_rows_among_the_names
    (composite_text : JSValue → string) (request : Request)
    (birds : list JSValue) (names : list string) (db : list Pg.Row)
    (Hne : names ≠ [])
    (Hbirds : prop (body request) "birds" = Normal (JArr birds))
    (Hnames : prop (body request) "birdNames" = Normal (bound_names names)) :
  let found := List.filter (present names) db in
  run (Pg.query composite_text Pg.Birds) (BirdRouter.get_by_names request) db
  = answered (BirdRouter.select_in_query (placeholder_list (length names)))
      (bound_names names) 200 (JArr (List.map Pg.row_json found)) db
  ∧ found `sublist_of` db
  ∧ ∀ r, In r found ↔ In r db ∧ ∃ k, key_of r = Some k ∧ k ∈ names.
Proof.
  cbv zeta. split; [|split].
  - by apply (lookup_by_names_nonempty composite_text Pg.Birds request birds).
  - apply filter_is_sublist.
  - intros r. rewrite List.filter_In, present_iff. tauto.
Qed.

Lemma lookup_returns_the_stored_rows_among_the_names_witness :
  response (run (Pg.query Sample.render Pg.Birds)
              (BirdRouter.get_by_names
                 {| body := names_body ["AmericanRobin"; "NotARealBird"];
                    params := [] |})
              [Sample.robin])
  = Some {| status := 200; payload := JArr [Pg.row_json Sample.robin] |}.
Proof.
  refine (f_equal response
            (proj1 (lookup_returns_the_stored_rows_among_the_names Sample.render
                      {| body := names_body ["AmericanRobin"; "NotARealBird"];
                         params := [] |}
                      [JStr "AmericanRobin"; JStr "NotARealBird"]
                      ["AmericanRobin"; "NotARealBird"] [Sample.robin] _ eq_refl eq_refl))).
  discriminate.
Defined.

(** X12. With unique keys in the store, a lookup of N names returns one
    row per distinct supplied name that is stored, hence at most N
    rows. *)
Theorem lookup_returns_one_row_per_stored_name
    (composite_text : JSValue → string) (names : list string) (db : list Pg.Row)
    (Hne : names ≠ [])
    (Hunique : NoDup (stored_keys db)) :
  ∃ found,
    response (run (Pg.query composite_text Pg.Birds)
                (BirdRouter.get_by_names {| body := names_body names; params := [] |})
                db)
    = Some {| status := 200; payload := JArr found |}
    ∧ length found
      = length (filter (λ n, n ∈ stored_keys db) (remove_dups names))
    ∧ (length found ≤ length names)%nat.
Proof.
  eexists. split.
  - by rewrite (lookup_by_names_nonempty composite_text Pg.Birds _
                  (List.map JStr names) names db).
  - rewrite length_map. by apply lookup_row_count.
Qed.

Lemma lookup_returns_one_row_per_stored_name_witness :
  ∃ found,
    response (run (Pg.query Sample.render Pg.Birds)
                (BirdRouter.get_by_names
                   {| body := names_body ["AmericanRobin"; "AmericanRobin"];
                      params := [] |})
                [Sample.robin])
    = Some {| status := 200; payload := JArr found |}
    ∧ length found
      = length (filter (λ n, n ∈ stored_keys [Sample.robin])
                  (remove_dups ["AmericanRobin"; "AmericanRobin"]))
    ∧ (length found ≤ 2)%nat.
Proof.
  apply (lookup_returns_one_row_per_stored_name Sample.render
           ["AmericanRobin"; "AmericanRobin"] [Sample.robin]).
  - discriminate.
  - vm_compute. apply NoDup_singleton.
Defined.

(** X13. A lookup depends on the set of names only: two non-empty
    arrays with the same elements, in any order and with any
    repetitions, get the same response. *)
Theorem lookup_ignores_order_and_repetition
    (composite_text : JSValue → string) (names1 names2 : list string)
    (db : list Pg.Row)
    (Hne : names1 ≠ [])
    (Hsame : ∀ k, k ∈ names1 ↔ k ∈ names2) :
  response (run (Pg.query composite_text Pg.Birds)
              (BirdRouter.get_by_names {| body := names_body names1; params := [] |})
              db)
  = response (run (Pg.query composite_text Pg.Birds)
                (BirdRouter.get_by_names {| body := names_body names2; params := [] |})
                db).
Proof.
  assert (Hne2 : names2 ≠ []).
  { destruct names1 as [|k names1]; [done |]. intros ->.
    by apply (not_elem_of_nil k), Hsame, list_elem_of_here. }
  rewrite (lookup_by_names_nonempty composite_text Pg.Birds _
             (List.map JStr names1) names1 db) by done.
  rewrite (lookup_by_names_nonempty composite_text Pg.Birds _
             (List.map JStr names2) names2 db) by done.
  cbn [answered response].
  by rewrite (List.filter_ext _ _ (fun r => present_same_names _ _ r Hsame)).
Qed.

Lemma lookup_ignores_order_and_repetition_witness :
  response (run (Pg.query Sample.render Pg.Birds)
              (BirdRouter.get_by_names
                 {| body := names_body ["NotARealBird"; "AmericanRobin"];
                    params := [] |})
              [Sample.robin])
  = response (run (Pg.query Sample.render Pg.Birds)
                (BirdRouter.get_by_names
                   {| body := names_body ["AmericanRobin"; "NotARealBird";
                                          "AmericanRobin"];
                      params := [] |})
                [Sample.robin]).
Proof.
  apply lookup_ignores_order_and_repetition; [discriminate |].
  intros k. rewrite !elem_of_cons, !elem_of_nil. tauto.
Defined.

(** X14. DELETE / with a non-empty array of names, over the table of
    the schema file: the rows whose key is one of the names are removed
    and every other row is kept, in order; the count in the message is
    the number of rows removed (404 when it is zero); the echo is the
    requested array. *)
Theorem delete_removes_exactly_the_named_rows
    (composite_text : JSValue → string) (request : Request)
    (names : list string) (db : list Pg.Row)
    (Hne : names ≠ [])
    (Hnames : prop (body request) "names" = Normal (bound_names names)) :
  let o := run (Pg.query composite_text Pg.Birds) (BirdRouter.delete request) db in
  let removed := length db - length (store o) in
  store o = List.filter (fun r => negb (present names r)) db
  ∧ removed = length (List.filter (present names) db)
  ∧ (∀ r, In r (store o) ↔ In r db ∧ ¬ ∃ k, key_of r = Some k ∧ k ∈ names)
  ∧ response o
    = Some (if (0 <? removed)%nat
            then {| status := 200;
                    payload :=
                      JObj [("message",
                              JStr (dec removed ++ " bird(s) deleted successfully."));
                            ("birdNames", bound_names names)] |}
            else {| status := 404;
                    payload :=
                      JObj [("message", JStr "No birds found with the provided names.");
                            ("birdNames", bound_names names)] |}).
Proof.
  cbv zeta.
  rewrite (delete_by_names_nonempty composite_text request names db Hne Hnames).
  cbv zeta. cbn [answered store response].
  assert (Hr : length db - length (List.filter (fun r => negb (present names r)) db)
               = length (List.filter (present names) db)).
  { pose proof (removed_plus_kept (present names) db). lia. }
  rewrite Hr. split; [done |]. split; [done |]. split.
  - intros r. rewrite List.filter_In, negb_true_iff, <- not_true_iff_false, present_iff.
    tauto.
  - by destruct (0 <? length (List.filter (present names) db))%nat.
Qed.

Lemma delete_removes_exactly_the_named_rows_witness :
  response (run (Pg.query Sample.render Pg.Birds)
              (BirdRouter.delete {| body := names_body ["AmericanRobin"]; params := [] |})
              [Sample.robin])
  = Some {| status := 200;
            payload :=
              JObj [("message", JStr "1 bird(s) deleted successfully.");
                    ("birdNames", JArr [JStr "AmericanRobin"])] |}.
Proof.
  exact (proj2 (proj2 (proj2 (delete_removes_exactly_the_named_rows Sample.render
           {| body := names_body ["AmericanRobin"]; params := [] |}
           ["AmericanRobin"] [Sample.robin] ltac:(discriminate) eq_refl)))).
Defined.

(** X15. After a delete of a non-empty array of names, a lookup of the
    same names answers 200 with an empty array, and a second delete of
    the same names answers 404 and changes nothing. *)
Theorem deleted_names_are_gone
    (composite_text : JSValue → string) (names : list string) (db : list Pg.Row)
    (Hne : names ≠ []) :
  let request := {| body := names_body names; params := [] |} in
  let after := store (run (Pg.query composite_text Pg.Birds)
                        (BirdRouter.delete request) db) in
  response (run (Pg.query composite_text Pg.Birds)
              (BirdRouter.get_by_names request) after)
  = Some {| status := 200; payload := JArr [] |}
  ∧ response (run (Pg.query composite_text Pg.Birds) (BirdRouter.delete request) after)
    = Some {| status := 404;
              payload :=
                JObj [("message", JStr "No birds found with the provided names.");
                      ("birdNames", bound_names names)] |}
  ∧ store (run (Pg.query composite_text Pg.Birds) (BirdRouter.delete request) after)
    = after.
Proof.
  cbv zeta.
  rewrite (delete_by_names_nonempty composite_text
             {| body := names_body names; params := [] |} names db Hne eq_refl).
  cbv zeta. cbn [answered store].
  rewrite (lookup_by_names_nonempty composite_text Pg.Birds _
             (List.map JStr names) names) by done.
  rewrite (delete_by_names_nonempty composite_text
             {| body := names_body names; params := [] |} names _ Hne eq_refl).
  cbv zeta. cbn [answered store response].
  rewrite !nothing_left_to_find. cbn [List.map length Nat.ltb Nat.leb].
  split; [done |]. split; [done |].
  rewrite <- (List.filter_ext_in (fun _ => true)); [apply List.filter_true |].
  intros r Hr. apply List.filter_In in Hr as [_ Hr]. by rewrite Hr.
Qed.

Lemma deleted_names_are_gone_witness :
  response (run (Pg.query Sample.render Pg.Birds)
              (BirdRouter.get_by_names
                 {| body := names_body ["AmericanRobin"]; params := [] |})
              (store (run (Pg.query Sample.render Pg.Birds)
                        (BirdRouter.delete
                           {| body := names_body ["AmericanRobin"]; params := [] |})
                        [Sample.robin])))
  = Some {| status := 200; payload := JArr [] |}.
Proof.
  exact (proj1 (deleted_names_are_gone Sample.render ["AmericanRobin"]
                  [Sample.robin] ltac:(discriminate))).
Defined.

(** X16. DELETE / with an empty array: the statement text has an empty
    IN list, the store rejects it, and the answer is 400 with the text
    [Error: undefined]; nothing is deleted. *)
Theorem delete_with_empty_array_is_rejected
    (composite_text : JSValue → string) (request : Request) (db : list Pg.Row)
    (Hnames : prop (body request) "names" = Normal (JArr [])) :
  run (Pg.query composite_text Pg.Birds) (BirdRouter.delete request) db
  = answered "DELETE FROM Birds WHERE Formatted_Com_Name IN ();" (JArr [])
      400 (message_body "Error: undefined") db.
Proof.
  rewrite (delete_unvalidated _ [] Hnames).
  by rewrite (run_query_rejected _ _ _ _ _ _ _ _
                (StoreFacts.query_delete_in_empty composite_text Pg.Birds _ db)).
Qed.

Lemma delete_with_empty_array_is_rejected_witness :
  run (Pg.query Sample.render Pg.Birds)
    (BirdRouter.delete {| body := names_body []; params := [] |}) [Sample.robin]
  = answered "DELETE FROM Birds WHERE Formatted_Com_Name IN ();" (JArr [])
      400 (message_body "Error: undefined") [Sample.robin].
Proof.
  exact (delete_with_empty_array_is_rejected Sample.render
           {| body := names_body []; params := [] |} [Sample.robin] eq_refl).
Defined.

(** ** What no route does to the store *)

Lemma stored_keys_sublist (db' db : list Pg.Row) :
  db' `sublist_of` db → stored_keys db' `sublist_of` stored_keys db.
Proof.
  unfold stored_keys. induction 1 as [|r l k _ IH|r l k _ IH]; [constructor | |];
    cbn [omap list_omap]; destruct (key_of r); try done; by constructor.
Qed.

Lemma lookup_keeps_the_store (composite_text : JSValue → string)
    (request : Request) (db : list Pg.Row) :
  store (run (Pg.query composite_text Pg.Birds) (BirdRouter.get_by_names request) db)
  = db.
Proof.
  unfold BirdRouter.get_by_names, BirdRouter.mwValidBirdsBody.
  destruct (prop (body request) "birds") as [birds|e]; [|done].
  destruct (isArray birds); [|done].
  unfold BirdRouter.get_by_names_handler.
  destruct (prop (body request) "birdNames") as [names|e]; [|done].
  destruct names as [| | | | |elems|]; try done.
  rewrite placeholders_array. destruct elems as [|v elems].
  - by rewrite (run_query_rejected _ _ _ _ _ _ _ _
                  (StoreFacts.query_select_in_empty composite_text Pg.Birds _ db)).
  - by rewrite (run_query_fulfilled _ _ _ _ _ _ _ _
                  (StoreFacts.query_select_in composite_text Pg.Birds
                     StoreFacts.Birds_name StoreFacts.Birds_key (v :: elems) db
                     ltac:(discriminate))).
Qed.

Lemma delete_only_removes (composite_text : JSValue → string)
    (request : Request) (db : list Pg.Row) :
  store (run (Pg.query composite_text Pg.Birds) (BirdRouter.delete request) db)
  `sublist_of` db.
Proof.
  unfold BirdRouter.delete.
  destruct (prop (body request) "names") as [names|e]; [|done].
  destruct names as [| | | | |elems|]; try done.
  rewrite placeholders_array. destruct elems as [|v elems].
  - by rewrite (run_query_rejected _ _ _ _ _ _ _ _
                  (StoreFacts.query_delete_in_empty composite_text Pg.Birds _ db)).
  - rewrite (run_query_fulfilled _ _ _ _ _ _ _ _
               (StoreFacts.query_delete_in composite_text Pg.Birds
                  StoreFacts.Birds_name StoreFacts.Birds_key (v :: elems) db
                  ltac:(discriminate))).
    unfold BirdRouter.delete_then. cbn [Pg.fulfilled rowCount].
    destruct (0 <? _)%nat; cbn [run queried store]; apply filter_is_sublist.
Qed.

(** X17. Over the table of the schema file no route ever adds or
    changes a row, for any request: list-all, lookup, create and update
    leave the store exactly as it was, and delete leaves a sub-sequence
    of it, so keys that were unique stay unique. *)
Theorem no_route_adds_or_changes_a_row
    (composite_text : JSValue → string) (request : Request) (db : list Pg.Row) :
  let after h := store (run (Pg.query composite_text Pg.Birds) (h request) db) in
  after BirdRouter.get_all = db
  ∧ after BirdRouter.get_by_names = db
  ∧ after BirdRouter.put = db
  ∧ after BirdRouter.post = db
  ∧ after BirdRouter.delete `sublist_of` db
  ∧ Forall (fun h => NoDup (stored_keys db) → NoDup (stored_keys (after h))) handlers.
Proof.
  cbv zeta.
  assert (Hall : store (run (Pg.query composite_text Pg.Birds)
                          (BirdRouter.get_all request) db) = db).
  { unfold BirdRouter.get_all.
    rewrite (run_query_fulfilled _ _ _ _ _ _ _ _ (query_select_all _ _)).
    unfold BirdRouter.get_all_then. cbn [Pg.fulfilled rowCount].
    by destruct (1 <=? length db)%nat. }
  assert (Hget := lookup_keeps_the_store composite_text request db).
  assert (Hput : store (run (Pg.query composite_text Pg.Birds)
                          (BirdRouter.put request) db) = db).
  { rewrite put_outcome. destruct (is_nullish _); [done |].
    by destruct (BirdRouter.read_fields _ _). }
  assert (Hpost : store (run (Pg.query composite_text Pg.Birds)
                           (BirdRouter.post request) db) = db).
  { rewrite post_outcome. destruct (is_nullish _); [done |].
    by destruct (BirdRouter.read_fields _ _). }
  assert (Hdel := delete_only_removes composite_text request db).
  repeat (split; [done |]).
  unfold handlers. repeat constructor; intros Hnd;
    rewrite ?Hall, ?Hget, ?Hput, ?Hpost; try done.
  eapply sublist_NoDup; [exact Hnd | by apply stored_keys_sublist].
Qed.

(** ** Statements and table definition side by side *)

(** X18. The statements of the router and the [Birds] table of the
    schema file differ in the one column [Habitat]: the lookup and
    delete statements resolve against the table for every non-empty
    list, the INSERT names every declared column and the UPDATE every
    declared column (the key in its WHERE clause), and [habitat] is the
    only name either of them uses that the table does not declare. *)
Theorem statements_and_table_differ_in_one_column :
  (∀ n, ∃ s,
      Pg.parse (BirdRouter.select_in_query (placeholder_list (Datatypes.S n))) = Some s
      ∧ Pg.analyse Pg.Birds s = None)
  ∧ (∀ n, ∃ s,
        Pg.parse (BirdRouter.delete_in_query (placeholder_list (Datatypes.S n))) = Some s
        ∧ Pg.analyse Pg.Birds s = None)
  ∧ (∃ s, Pg.parse BirdRouter.insert_query = Some s
          ∧ ∀ c, c ∈ Pg.stmt_columns s
                 ↔ c ∈ Pg.column_names Pg.Birds ∨ c = "habitat")
  ∧ (∃ s, Pg.parse BirdRouter.update_query = Some s
          ∧ ∀ c, c ∈ Pg.stmt_columns s
                 ↔ c ∈ Pg.column_names Pg.Birds ∨ c = "habitat")
  ∧ "habitat" ∉ Pg.column_names Pg.Birds.
Proof.
  split; [|split; [|split; [|split]]].
  - intros n. eexists. split; [apply PgFacts.parse_select_in |].
    apply (StoreFacts.analyse_select_in Pg.Birds StoreFacts.Birds_name
             StoreFacts.Birds_key).
  - intros n. eexists. split; [apply PgFacts.parse_delete_in |].
    apply (StoreFacts.analyse_delete_in Pg.Birds StoreFacts.Birds_name
             StoreFacts.Birds_key).
  - eexists. split; [apply parse_insert_query |]. intros c.
    change (Pg.column_names Pg.Birds)
      with ["formatted_com_name"; "com_name"; "sci_name"; "preview_photo";
            "male_breeding_photo"; "male_nonbreeding_photo"; "female_photo";
            "sound"; "short_desc"; "long_desc"; "how_to_find"; "learn_more_link"].
    cbn [Pg.stmt_columns]. rewrite !elem_of_cons, !elem_of_nil. tauto.
  - eexists. split; [apply parse_update_query |]. intros c.
    change (Pg.column_names Pg.Birds)
      with ["formatted_com_name"; "com_name"; "sci_name"; "preview_photo";
            "male_breeding_photo"; "male_nonbreeding_photo"; "female_photo";
            "sound"; "short_desc"; "long_desc"; "how_to_find"; "learn_more_link"].
    cbn [Pg.stmt_columns List.map fst app].
    rewrite !elem_of_cons, !elem_of_nil. tauto.
  - change (Pg.column_names Pg.Birds)
      with ["formatted_com_name"; "com_name"; "sci_name"; "preview_photo";
            "male_breeding_photo"; "male_nonbreeding_photo"; "female_photo";
            "sound"; "short_desc"; "long_desc"; "how_to_find"; "learn_more_link"].
    rewrite !elem_of_cons, !elem_of_nil. intros H.
    repeat (destruct H as [H|H]; [discriminate H |]). done.
Qed.
